(** * The video-generation job client of [services/geminiService.ts]

    A shallow embedding of the class [GeminiVideoService]: the singleton
    accessor [getInstance] and the asynchronous method
    [generateCinematicAnimation], which submits one generation request,
    polls the returned operation every ten seconds until it is done,
    downloads the produced video and hands back an object URL.

    The method talks to four collaborators that are not part of the
    repository (the GenAI SDK, [setTimeout], [fetch], [URL]).  They are
    gathered in a record [Env]; every call made to them, every progress
    message and every console line is logged as an [Event], so that a run
    is a trace of events together with the way the promise settles.

    Two assumptions are made on the caller and the thrown values: the
    progress callback returns (the application passes a state setter), and
    a thrown value is an object whose [message], when present, is a
    string. *)

From Stdlib Require Import String Ascii List Arith Bool ZArith Lia.
Import ListNotations.
Local Open Scope string_scope.

(** ** Strings *)

(** [String.prototype.includes]: [includes s search] holds when [search]
    occurs somewhere in [s] (the comparison is exact, hence
    case-sensitive). *)
Fixpoint includes (s search : string) : bool :=
  if String.prefix search s then true
  else match s with
       | EmptyString => false
       | String _ s' => includes s' search
       end.

(** ** Values exchanged with the collaborators *)

(** A thrown value.  [new Error(msg)] builds one whose name is "Error";
    the SDK may throw its own subclasses, and [message] may be absent,
    which is what the optional call [error.message?.includes] guards. *)
Record JsError : Type := mkJsError {
  errorName : string;
  message : option string
}.

Definition Error (msg : string) : JsError :=
  {| errorName := "Error"; message := Some msg |}.

(** The way a promise settles. *)
Inductive Settled (A : Type) : Type :=
| Fulfilled (a : A)
| Rejected (e : JsError).
Arguments Fulfilled {A} a.
Arguments Rejected {A} e.

(** The argument of [ai.models.generateVideos]. *)
Record VideoConfig : Type := {
  numberOfVideos : nat;
  resolution : string;
  aspectRatio : string
}.

Record ImageInput : Type := {
  imageBytes : string;
  mimeType : string
}.

Record VideoRequest : Type := {
  model : string;
  prompt : string;
  image : ImageInput;
  config : VideoConfig
}.

(** The operation handle, reduced to the fields the method reads:
    [operation.done] and
    [operation.response?.generatedVideos?.[0]?.video?.uri].  Every link of
    that chain is optional.  An absent [done] is read as [false], as
    [!operation.done] does.  [handle] stands for the rest of the object. *)
Record Video : Type := { uri : option string }.
Record GeneratedVideo : Type := { video : option Video }.
Record GenerateVideosResponse : Type := {
  generatedVideos : option (list GeneratedVideo)
}.
Record Operation : Type := {
  handle : string;
  done : bool;
  response : option GenerateVideosResponse
}.

Definition Blob : Type := list Byte.byte.

(** What [fetch] resolves to: the [ok] flag and the settlement of
    [response.blob()]. *)
Record Response : Type := {
  ok : bool;
  blob : Settled Blob
}.

(** ** The environment *)

(** [API_KEY] is [process.env.API_KEY]; [newGoogleGenAI] is the
    constructor of the SDK client, which may refuse the key it is given.
    [getVideosOperation] receives, besides the handle, the number of polls
    already answered: the service is stateful and may answer the same
    handle differently as time passes. *)
Record Env : Type := {
  API_KEY : option string;
  newGoogleGenAI : option string -> Settled unit;
  generateVideos : VideoRequest -> Settled Operation;
  getVideosOperation : nat -> Operation -> Settled Operation;
  fetch : string -> Settled Response;
  createObjectURL : Blob -> string
}.

(** ** Events *)

Inductive Event : Type :=
| NewGoogleGenAI (apiKey : option string) (res : Settled unit)
| StatusUpdate (msg : string)
| GenerateVideos (req : VideoRequest) (res : Settled Operation)
| SetTimeout (ms : Z)
| GetVideosOperation (op : Operation) (res : Settled Operation)
| Fetch (url : string) (res : Settled Response)
| ReadBlob (res : Settled Blob)
| CreateObjectURL (b : Blob) (url : string)
| ConsoleError (label : string) (e : JsError).

(** ** A monad for the body of an async function

    A computation reads the number of polls answered so far and yields the
    events it produced, the new count and its completion.  [OutOfFuel]
    marks a run cut off while the poll loop was still turning; it is not a
    behaviour of the program. *)
Inductive Completion (A : Type) : Type :=
| Normal (a : A)
| Throw (e : JsError)
| OutOfFuel.
Arguments Normal {A} a.
Arguments Throw {A} e.
Arguments OutOfFuel {A}.

Definition M (A : Type) : Type := nat -> list Event * nat * Completion A.

Definition ret {A} (a : A) : M A := fun n => ([], n, Normal a).

Definition bind {A B} (m : M A) (f : A -> M B) : M B :=
  fun n =>
    let '(t1, n1, c) := m n in
    match c with
    | Normal a => let '(t2, n2, c2) := f a n1 in ((t1 ++ t2)%list, n2, c2)
    | Throw e => (t1, n1, Throw e)
    | OutOfFuel => (t1, n1, OutOfFuel)
    end.

Definition throw {A} (e : JsError) : M A := fun n => ([], n, Throw e).

Definition diverge {A} : M A := fun n => ([], n, OutOfFuel).

(** [try { body } catch (error) { handler }] *)
Definition try_catch {A} (body : M A) (handler : JsError -> M A) : M A :=
  fun n =>
    let '(t1, n1, c) := body n in
    match c with
    | Throw e => let '(t2, n2, c2) := handler e n1 in ((t1 ++ t2)%list, n2, c2)
    | _ => (t1, n1, c)
    end.

Definition emit (e : Event) : M unit := fun n => ([e], n, Normal tt).

(** [await p] for a promise that has settled as [r]. *)
Definition await {A} (r : Settled A) : M A :=
  match r with
  | Fulfilled a => ret a
  | Rejected e => throw e
  end.

Declare Scope js_scope.
Delimit Scope js_scope with js.
Notation "x <- m ;; k" := (bind m (fun x => k))
  (at level 100, m at next level, right associativity) : js_scope.
Notation "m ;; k" := (bind m (fun _ => k))
  (at level 100, right associativity) : js_scope.
Local Open Scope js_scope.

(** ** The method *)

Definition PROMPT : string :=
  "Cinematic realistic animation from this image. Long flowing white hair moving gently in cold mountain wind, smooth and natural flow. Wavy hair strands following the wind direction. Facial expression and features remain unchanged. Fine snow, light dust, and atmospheric particles floating dynamically with depth of field. Red ribbons and fabric fluttering softly. Static camera with very subtle slow push-in. Epic fantasy style, high detail, soft cold lighting, serene yet powerful atmosphere, smooth motion, no distortion.".

Definition loadingMessages : list string :=
  [ "Simulating mountain wind patterns...";
    "Rendering atmospheric particle depth...";
    "Polishing hair strand animations...";
    "Applying cinematic lighting passes...";
    "Finalizing realistic motion vectors...";
    "Almost ready for your vision..." ].

(** [loadingMessages[messageIndex % loadingMessages.length]] *)
Definition loadingMessage (messageIndex : nat) : string :=
  nth (messageIndex mod length loadingMessages) loadingMessages "undefined".

(** The request literal passed to [generateVideos]. *)
Definition videoRequest (imageBase64 : string) : VideoRequest :=
  {| model := "veo-3.1-fast-generate-preview";
     prompt := PROMPT;
     image := {| imageBytes := imageBase64; mimeType := "image/png" |};
     config := {| numberOfVideos := 1;
                  resolution := "1080p";
                  aspectRatio := "16:9" |} |}.

(** [operation.response?.generatedVideos?.[0]?.video?.uri] *)
Definition downloadLink (operation : Operation) : option string :=
  match response operation with
  | None => None
  | Some r =>
      match generatedVideos r with
      | None => None
      | Some vs =>
          match nth_error vs 0 with
          | None => None
          | Some v =>
              match video v with
              | None => None
              | Some vd => uri vd
              end
          end
      end
  end.

(** [!downloadLink]: [undefined] and the empty string are falsy. *)
Definition isFalsy (link : option string) : bool :=
  match link with
  | None => true
  | Some EmptyString => true
  | Some _ => false
  end.

(** A template literal prints an absent value as "undefined". *)
Definition interpolate (v : option string) : string :=
  match v with
  | Some s => s
  | None => "undefined"
  end.

Section Client.

Variable env : Env.

Definition onStatusUpdate (msg : string) : M unit := emit (StatusUpdate msg).

(** [new GoogleGenAI({ apiKey: process.env.API_KEY })] *)
Definition new_GoogleGenAI : M unit :=
  let res := newGoogleGenAI env (API_KEY env) in
  emit (NewGoogleGenAI (API_KEY env) res) ;; await res.

Definition call_generateVideos (req : VideoRequest) : M Operation :=
  let res := generateVideos env req in
  emit (GenerateVideos req res) ;; await res.

Definition sleep (ms : Z) : M unit := emit (SetTimeout ms).

Definition call_getVideosOperation (operation : Operation) : M Operation :=
  fun n =>
    let res := getVideosOperation env n operation in
    (emit (GetVideosOperation operation res) ;; await res) (S n).

Definition call_fetch (url : string) : M Response :=
  let res := fetch env url in
  emit (Fetch url res) ;; await res.

Definition call_blob (r : Response) : M Blob :=
  emit (ReadBlob (blob r)) ;; await (blob r).

Definition call_createObjectURL (b : Blob) : M string :=
  let url := createObjectURL env b in
  emit (CreateObjectURL b url) ;; ret url.

Definition console_error (label : string) (e : JsError) : M unit :=
  emit (ConsoleError label e).

(** [while (!operation.done) { ... }], with the two variables the body
    updates.  [fuel] bounds the number of turns the model follows. *)
Fixpoint poll_loop (fuel : nat) (operation : Operation) (messageIndex : nat)
  : M Operation :=
  if done operation then ret operation
  else
    match fuel with
    | O => diverge
    | S fuel' =>
        sleep 10000 ;;
        onStatusUpdate (loadingMessage messageIndex) ;;
        operation' <- call_getVideosOperation operation ;;
        poll_loop fuel' operation' (S messageIndex)
    end.

(** The test of the [catch] block:
    [error.message?.includes("Requested entity was not found")]. *)
Definition isKeyRejection (error : JsError) : bool :=
  match message error with
  | Some m => includes m "Requested entity was not found"
  | None => false
  end.

Definition generateCinematicAnimation (fuel : nat) (imageBase64 : string)
  : M string :=
  new_GoogleGenAI ;;
  onStatusUpdate "Initializing video generation engine..." ;;
  try_catch
    (operation <- call_generateVideos (videoRequest imageBase64) ;;
     onStatusUpdate "Crafting visual physics and hair dynamics..." ;;
     operation <- poll_loop fuel operation 0 ;;
     let link := downloadLink operation in
     if isFalsy link then
       throw (Error "Failed to retrieve generated video URL.")
     else
       onStatusUpdate "Downloading final high-fidelity export..." ;;
       response <- call_fetch (interpolate link ++ "&key="
                                 ++ interpolate (API_KEY env)) ;;
       if negb (ok response) then
         throw (Error "Failed to fetch the video data.")
       else
         b <- call_blob response ;;
         call_createObjectURL b)
    (fun error =>
       console_error "Video Generation Error:" error ;;
       if isKeyRejection error then throw (Error "API_KEY_RESET")
       else throw error).

(** Lines 63 to 75, what the [try] block does once the loop is left. *)
Definition afterLoop (operation : Operation) : M string :=
  let link := downloadLink operation in
  if isFalsy link then
    throw (Error "Failed to retrieve generated video URL.")
  else
    onStatusUpdate "Downloading final high-fidelity export..." ;;
    response <- call_fetch (interpolate link ++ "&key="
                              ++ interpolate (API_KEY env)) ;;
    if negb (ok response) then
      throw (Error "Failed to fetch the video data.")
    else
      b <- call_blob response ;;
      call_createObjectURL b.

(** Lines 78 to 82, the [catch] block. *)
Definition catchBlock (error : JsError) : M string :=
  console_error "Video Generation Error:" error ;;
  if isKeyRejection error then throw (Error "API_KEY_RESET")
  else throw error.

(** One call of the method on a fresh service: the events, in order, and
    the settlement of the returned promise. *)
Definition run (fuel : nat) (imageBase64 : string)
  : list Event * Completion string :=
  let '(t, _, c) := generateCinematicAnimation fuel imageBase64 0 in (t, c).

Definition trace (fuel : nat) (imageBase64 : string) : list Event :=
  fst (run fuel imageBase64).

Definition outcome (fuel : nat) (imageBase64 : string) : Completion string :=
  snd (run fuel imageBase64).

End Client.

(** ** The singleton accessor

    Objects are compared by identity, so an instance is its reference.
    The class owns one private static field; [allocated] counts the
    objects created so far and provides the next reference. *)
Module Singleton.

Definition ObjRef : Type := nat.

Record ClassState : Type := {
  instance : option ObjRef;
  allocated : nat
}.

(** [new GeminiVideoService()]: the constructor body is empty. *)
Definition new (s : ClassState) : ObjRef * ClassState :=
  (allocated s, {| instance := instance s; allocated := S (allocated s) |}).

(** [if (!GeminiVideoService.instance) { instance = new ... }
     return GeminiVideoService.instance;]
    An object reference is always truthy. *)
Definition getInstance (s : ClassState) : ObjRef * ClassState :=
  match instance s with
  | None =>
      let '(r, s') := new s in
      (r, {| instance := Some r; allocated := allocated s' |})
  | Some r => (r, s)
  end.

(** What the rest of the application can do to the class state between
    two calls: the field is private and the constructor too, so other code
    only creates objects of its own. *)
Inductive Action : Type :=
| CallGetInstance
| OtherNew.

(** The references the calls of a program return, in order. *)
Fixpoint exec (acts : list Action) (s : ClassState) : list ObjRef :=
  match acts with
  | [] => []
  | CallGetInstance :: acts' =>
      let '(r, s') := getInstance s in r :: exec acts' s'
  | OtherNew :: acts' =>
      let '(_, s') := new s in exec acts' s'
  end.

(** The state of a freshly loaded class. *)
Definition loaded : ClassState := {| instance := None; allocated := 0 |}.

End Singleton.

(** ** Reading a trace *)

Definition statuses (t : list Event) : list string :=
  flat_map (fun e => match e with StatusUpdate m => [m] | _ => [] end) t.

Definition waits (t : list Event) : list Z :=
  flat_map (fun e => match e with SetTimeout ms => [ms] | _ => [] end) t.

Definition submissions (t : list Event) : list VideoRequest :=
  flat_map (fun e => match e with GenerateVideos r _ => [r] | _ => [] end) t.

Definition polls (t : list Event) : list Operation :=
  flat_map (fun e => match e with GetVideosOperation o _ => [o] | _ => [] end) t.

Definition fetches (t : list Event) : list string :=
  flat_map (fun e => match e with Fetch u _ => [u] | _ => [] end) t.

Definition objectURLs (t : list Event) : list string :=
  flat_map (fun e => match e with CreateObjectURL _ u => [u] | _ => [] end) t.

(** The errors the upstream service answered a submission or a poll with. *)
Definition upstreamErrors (t : list Event) : list JsError :=
  flat_map (fun e => match e with
                     | GenerateVideos _ (Rejected x) => [x]
                     | GetVideosOperation _ (Rejected x) => [x]
                     | _ => []
                     end) t.

(** ** Describing what the service does during a run

    [h 0] is the handle the submission returns and [h (S j)] the answer to
    poll number [j]. *)

Definition Constructed (env : Env) : Prop :=
  newGoogleGenAI env (API_KEY env) = Fulfilled tt.

Definition Submitted (env : Env) (imageBase64 : string)
  (h : nat -> Operation) : Prop :=
  Constructed env /\
  generateVideos env (videoRequest imageBase64) = Fulfilled (h 0).

(** The first [N] handles are not done and each poll is answered. *)
Definition Pending (env : Env) (h : nat -> Operation) (N : nat) : Prop :=
  forall j, j < N ->
    done (h j) = false /\
    getVideosOperation env j (h j) = Fulfilled (h (S j)).

(** The operation is seen not done [N] times, then done. *)
Definition DoneAfter (env : Env) (imageBase64 : string)
  (h : nat -> Operation) (N : nat) : Prop :=
  Submitted env imageBase64 h /\ Pending env h N /\ done (h N) = true.

(** The submission, or the poll that follows [N] answered ones, throws
    [e]. *)
Inductive Raises (env : Env) (imageBase64 : string) (e : JsError)
  : nat -> Prop :=
| submit_raises :
    Constructed env ->
    generateVideos env (videoRequest imageBase64) = Rejected e ->
    Raises env imageBase64 e 0
| poll_raises (h : nat -> Operation) (N : nat) :
    Submitted env imageBase64 h ->
    Pending env h N ->
    done (h N) = false ->
    getVideosOperation env N (h N) = Rejected e ->
    Raises env imageBase64 e (S N).

(** The events of turns [i], ..., [i + N - 1] of the loop. *)
Fixpoint turns (h : nat -> Operation) (i N : nat) : list Event :=
  match N with
  | O => []
  | S N' =>
      SetTimeout 10000
        :: StatusUpdate (loadingMessage i)
        :: GetVideosOperation (h i) (Fulfilled (h (S i)))
        :: turns h (S i) N'
  end.

(** The call protocol: which upstream call may come next. *)
Inductive Phase : Type :=
| Idle
| Holding (operation : Operation)
| Closed.

Definition answered (res : Settled Operation) : Phase :=
  match res with
  | Fulfilled op => Holding op
  | Rejected _ => Closed
  end.

Definition advance (p : Phase) (e : Event) : Phase :=
  match e with
  | GenerateVideos _ res => answered res
  | GetVideosOperation _ res => answered res
  | Fetch _ _ => Closed
  | _ => p
  end.

Definition phase_after (p : Phase) (t : list Event) : Phase :=
  fold_left advance t p.

(** [allowed env p e]: event [e] is legal in phase [p].  The submission
    comes first and once; a poll passes on the handle last received, which
    is not done; the download takes the link of the handle last received,
    which is done; nothing is called once the download was issued or a
    call failed. *)
Definition allowed (env : Env) (p : Phase) (e : Event) : Prop :=
  match e, p with
  | GenerateVideos _ _, Idle => True
  | GenerateVideos _ _, _ => False
  | GetVideosOperation op _, Holding cur => op = cur /\ done cur = false
  | GetVideosOperation _ _, _ => False
  | Fetch url _, Holding cur =>
      done cur = true /\
      url = (interpolate (downloadLink cur) ++ "&key="
               ++ interpolate (API_KEY env))%string
  | Fetch _ _, _ => False
  | _, _ => True
  end.

Fixpoint ordered (env : Env) (p : Phase) (t : list Event) : Prop :=
  match t with
  | [] => True
  | e :: t' => allowed env p e /\ ordered env (advance p e) t'
  end.

(** The completed operation carries no usable link: some part of
    [response.generatedVideos[0].video.uri] is absent, the list is empty,
    or the link is the empty string. *)
Inductive NoPlayableReference (operation : Operation) : Prop :=
| no_response :
    response operation = None -> NoPlayableReference operation
| no_list r :
    response operation = Some r -> generatedVideos r = None ->
    NoPlayableReference operation
| empty_list r :
    response operation = Some r -> generatedVideos r = Some [] ->
    NoPlayableReference operation
| no_video r v vs :
    response operation = Some r -> generatedVideos r = Some (v :: vs) ->
    video v = None -> NoPlayableReference operation
| no_uri r v vs vd :
    response operation = Some r -> generatedVideos r = Some (v :: vs) ->
    video v = Some vd -> uri vd = None -> NoPlayableReference operation
| empty_uri r v vs vd :
    response operation = Some r -> generatedVideos r = Some (v :: vs) ->
    video v = Some vd -> uri vd = Some EmptyString ->
    NoPlayableReference operation.

(** The message of [e], if it has one, does not contain [sub]. *)
Definition lacks (e : JsError) (sub : string) : Prop :=
  forall m, message e = Some m -> includes m sub = false.

(** What the [catch] block turns a completion of the [try] block into:
    the console line it prints and the completion of the method. *)
Definition rethrown (e : JsError) : Completion string :=
  if isKeyRejection e then Throw (Error "API_KEY_RESET") else Throw e.

Definition caught (c : Completion string) : list Event :=
  match c with
  | Throw e => [ConsoleError "Video Generation Error:" e]
  | _ => []
  end.

Definition settle (c : Completion string) : Completion string :=
  match c with
  | Throw e => rethrown e
  | _ => c
  end.

(** ** Concrete services, for running the model *)

Definition pendingOp (name : string) : Operation :=
  {| handle := name; done := false; response := None |}.

Definition finishedOp (name : string) (vs : list GeneratedVideo) : Operation :=
  {| handle := name; done := true;
     response := Some {| generatedVideos := Some vs |} |}.

Definition videoAt (u : string) : GeneratedVideo :=
  {| video := Some {| uri := Some u |} |}.

(** A service that answers the submission with [first], poll number [j]
    with the [j]-th element of [answers], and every download with [dl]. *)
Definition scripted (first : Settled Operation)
  (answers : list (Settled Operation)) (dl : Settled Response) : Env :=
  {| API_KEY := Some "k3y";
     newGoogleGenAI := fun _ => Fulfilled tt;
     generateVideos := fun _ => first;
     getVideosOperation := fun j _ =>
       nth j answers (Rejected (Error "script exhausted"));
     fetch := fun _ => dl;
     createObjectURL := fun _ => "blob:local/1" |}.

Definition body : Blob := [Byte.x00; Byte.x01; Byte.x02].

Definition okDownload : Settled Response :=
  Fulfilled {| ok := true; blob := Fulfilled body |}.

(** Submission pending, first poll done with a link, download succeeds. *)
Definition scenario : Env :=
  scripted (Fulfilled (pendingOp "op"))
           [Fulfilled (finishedOp "op" [videoAt "https://x/video123"])]
           okDownload.

(** The operation is already done when the submission returns. *)
Definition immediate : Env :=
  scripted (Fulfilled (finishedOp "op" [videoAt "https://x/video123"]))
           [] okDownload.

(** The submission is refused with a message that has the short phrase
    but not the long one. *)
Definition shortNotFound : JsError :=
  {| errorName := "ApiError"; message := Some "The entity was not found." |}.

Definition refusing : Env :=
  scripted (Rejected shortNotFound) [] okDownload.

(** The first poll is refused with the phrase the [catch] block looks
    for. *)
Definition keyRejected : JsError :=
  {| errorName := "ApiError";
     message := Some "404 NOT_FOUND: Requested entity was not found." |}.

Definition expiring : Env :=
  scripted (Fulfilled (pendingOp "op")) [Rejected keyRejected] okDownload.

(** The first poll fails for another reason. *)
Definition quotaExceeded : JsError :=
  {| errorName := "ApiError"; message := Some "429 RESOURCE_EXHAUSTED" |}.

Definition throttling : Env :=
  scripted (Fulfilled (pendingOp "op")) [Rejected quotaExceeded] okDownload.

(** Two polls, the second done with an empty result list. *)
Definition emptyHanded : Env :=
  scripted (Fulfilled (pendingOp "op"))
           [Fulfilled (pendingOp "op"); Fulfilled (finishedOp "op" [])]
           okDownload.

Definition emptyHandedHandles (j : nat) : Operation :=
  match j with
  | 0 | 1 => pendingOp "op"
  | _ => finishedOp "op" []
  end.

(** As [scenario], but the download answers with a failure status. *)
Definition forbidden : Response :=
  {| ok := false; blob := Fulfilled [] |}.

Definition unreachable : Env :=
  scripted (Fulfilled (pendingOp "op"))
           [Fulfilled (finishedOp "op" [videoAt "https://x/video123"])]
           (Fulfilled forbidden).

(** Seven polls before the operation is done. *)
Definition slow : Env :=
  scripted (Fulfilled (pendingOp "op"))
           (repeat (Fulfilled (pendingOp "op")) 6
              ++ [Fulfilled (finishedOp "op" [videoAt "https://x/video123"])])
           okDownload.


Definition scenarioHandles (j : nat) : Operation :=
  match j with
  | O => pendingOp "op"
  | _ => finishedOp "op" [videoAt "https://x/video123"]
  end.

(** ** More ways to read a run *)

Definition consoleErrors (t : list Event) : list JsError :=
  flat_map (fun e => match e with ConsoleError _ x => [x] | _ => [] end) t.

(** The state the class is left in by a program of calls. *)
Fixpoint finalState (acts : list Singleton.Action)
  (s : Singleton.ClassState) : Singleton.ClassState :=
  match acts with
  | [] => s
  | Singleton.CallGetInstance :: acts' =>
      finalState acts' (snd (Singleton.getInstance s))
  | Singleton.OtherNew :: acts' =>
      finalState acts' (snd (Singleton.new s))
  end.

(** A service whose operation never completes. *)
Definition stalling : Env :=
  {| API_KEY := Some "k3y";
     newGoogleGenAI := fun _ => Fulfilled tt;
     generateVideos := fun _ => Fulfilled (pendingOp "op");
     getVideosOperation := fun _ _ => Fulfilled (pendingOp "op");
     fetch := fun _ => okDownload;
     createObjectURL := fun _ => "blob:local/1" |}.

(** A service whose client cannot be built. *)
Definition keyless : Env :=
  {| API_KEY := None;
     newGoogleGenAI := fun _ => Rejected keyRejected;
     generateVideos := fun _ => Fulfilled (pendingOp "op");
     getVideosOperation := fun _ _ => Fulfilled (pendingOp "op");
     fetch := fun _ => okDownload;
     createObjectURL := fun _ => "blob:local/1" |}.

(** As [scenario], but the download is cut off with the phrase of the
    [catch] block in its message. *)
Definition cutOff : Env :=
  scripted (Fulfilled (pendingOp "op"))
           [Fulfilled (finishedOp "op" [videoAt "https://x/video123"])]
           (Rejected keyRejected).

(** The download throws [e]: [fetch] rejects, or it answers with a
    success status and [response.blob()] rejects. *)
Inductive DownloadRaises (env : Env) (url : string) (e : JsError) : Prop :=
| fetch_rejects :
    fetch env url = Rejected e -> DownloadRaises env url e
| blob_rejects r :
    fetch env url = Fulfilled r -> ok r = true -> blob r = Rejected e ->
    DownloadRaises env url e.

(** ** The application, [App.tsx]

    The component keeps six pieces of state and changes them in event
    handlers and in the continuations of its asynchronous handlers.  Every
    write is a blind write of a setter, so a handler is a function on the
    state.  What runs between two awaited calls runs without interruption;
    a generation in flight is kept as a [Job] and resumed once per awaited
    call, so that other handlers can run in between.

    The DOM (the value of the file input, which [reset] clears) and the
    console are not part of the model. *)
Module App.

(** [types.ts] *)
Inductive GenerationStep : Type :=
| IDLE
| INITIALIZING
| UPLOADING
| GENERATING
| FETCHING
| COMPLETED
| ERROR.

Record File : Type := {
  fileName : string;
  fileContent : Blob
}.

(** [base64] is declared a string; [split(',')[1]] makes it [undefined]
    when the text read holds no comma. *)
Record ImagePreview : Type := {
  file : File;
  base64 : option string;
  url : string
}.

Record AppState : Type := {
  image : option ImagePreview;
  videoUrl : option string;
  status : GenerationStep;
  statusMessage : string;
  error : option string;
  hasKey : bool
}.

(** The six [useState] initial values. *)
Definition initialState : AppState :=
  {| image := None; videoUrl := None; status := IDLE;
     statusMessage := ""; error := None; hasKey := false |}.

Definition setImage (v : option ImagePreview) (s : AppState) : AppState :=
  {| image := v; videoUrl := videoUrl s; status := status s;
     statusMessage := statusMessage s; error := error s;
     hasKey := hasKey s |}.

Definition setVideoUrl (v : option string) (s : AppState) : AppState :=
  {| image := image s; videoUrl := v; status := status s;
     statusMessage := statusMessage s; error := error s;
     hasKey := hasKey s |}.

Definition setStatus (v : GenerationStep) (s : AppState) : AppState :=
  {| image := image s; videoUrl := videoUrl s; status := v;
     statusMessage := statusMessage s; error := error s;
     hasKey := hasKey s |}.

Definition setStatusMessage (v : string) (s : AppState) : AppState :=
  {| image := image s; videoUrl := videoUrl s; status := status s;
     statusMessage := v; error := error s; hasKey := hasKey s |}.

Definition setError (v : option string) (s : AppState) : AppState :=
  {| image := image s; videoUrl := videoUrl s; status := status s;
     statusMessage := statusMessage s; error := v; hasKey := hasKey s |}.

Definition setHasKey (v : bool) (s : AppState) : AppState :=
  {| image := image s; videoUrl := videoUrl s; status := status s;
     statusMessage := statusMessage s; error := error s; hasKey := v |}.

(** [String.prototype.split] with a separator of one character. *)
Fixpoint split (sep : ascii) (s : string) : list string :=
  match s with
  | EmptyString => [EmptyString]
  | String c s' =>
      if Ascii.eqb c sep then EmptyString :: split sep s'
      else match split sep s' with
           | [] => [String c EmptyString]
           | piece :: pieces => String c piece :: pieces
           end
  end.

(** [c] occurs in [s]. *)
Fixpoint hasChar (c : ascii) (s : string) : bool :=
  match s with
  | EmptyString => false
  | String d s' => if Ascii.eqb d c then true else hasChar c s'
  end.

(** [base64.split(',')[1]], the text read without its data URL prefix. *)
Definition base64Clean (base64 : string) : option string :=
  nth_error (split "," base64) 1.

(** The calls of the service that suspend the method: the continuation
    runs in a later task. *)
Definition isAwaited (e : Event) : bool :=
  match e with
  | GenerateVideos _ _ | SetTimeout _ | GetVideosOperation _ _
  | Fetch _ _ | ReadBlob _ => true
  | _ => false
  end.

(** The progress messages of a run, grouped by the stretches between two
    awaited calls: the first group is emitted before the first awaited
    call returns, the last one after the last. *)
Fixpoint segments (t : list Event) : list (list string) :=
  match t with
  | [] => [[]]
  | e :: t' =>
      if isAwaited e then [] :: segments t'
      else
        match e, segments t' with
        | StatusUpdate m, seg :: segs => (m :: seg) :: segs
        | _, segs => segs
        end
  end.

(** The number of awaited calls of a run. *)
Definition awaits (t : list Event) : nat := length (filter isAwaited t).

(** A generation in flight: the groups of messages not yet delivered, one
    per awaited call still to return, and the way the promise settles. *)
Record Job : Type := {
  pending : list (list string);
  completion : Completion string
}.

(** The component, the class of the service, the generations in flight
    and the files being read. *)
Record World : Type := {
  app : AppState;
  service : Singleton.ClassState;
  jobs : list Job;
  readers : list File
}.

Definition boot : World :=
  {| app := initialState; service := Singleton.loaded;
     jobs := []; readers := [] |}.

Definition withApp (s : AppState) (w : World) : World :=
  {| app := s; service := service w; jobs := jobs w; readers := readers w |}.

Section Handlers.

Variable env : Env.
Variable fuel : nat.

(** [checkApiKey], once [hasSelectedApiKey()] has settled as [r]. *)
Definition checkApiKey (r : Settled bool) (w : World) : World :=
  match r with
  | Fulfilled selected => withApp (setHasKey selected (app w)) w
  | Rejected _ => w
  end.

(** [handleSelectKey], once [openSelectKey()] has settled as [r]. *)
Definition handleSelectKey (r : Settled unit) (w : World) : World :=
  match r with
  | Fulfilled _ => withApp (setHasKey true (app w)) w
  | Rejected _ => w
  end.

(** [handleImageUpload]: the first file, if any, is handed to a reader. *)
Definition handleImageUpload (files : list File) (w : World) : World :=
  match nth_error files 0 with
  | Some f =>
      {| app := app w; service := service w; jobs := jobs w;
         readers := readers w ++ [f] |}
  | None => w
  end.

(** [reader.onloadend] of the reader at position [i], with [reader.result]
    equal to [result].  On a failed read the result is [null] and
    [base64.split] throws in the callback, which leaves the state as it
    is. *)
Definition onloadend (i : nat) (result : option string) (w : World) : World :=
  match nth_error (readers w) i with
  | None => w
  | Some f =>
      let remaining := (firstn i (readers w) ++ skipn (S i) (readers w))%list in
      match result with
      | None =>
          {| app := app w; service := service w; jobs := jobs w;
             readers := remaining |}
      | Some text =>
          {| app :=
               setError None
                 (setVideoUrl None
                    (setImage
                       (Some {| file := f;
                                base64 := base64Clean text;
                                url := createObjectURL env (fileContent f) |})
                       (app w)));
             service := service w; jobs := jobs w;
             readers := remaining |}
      end
  end.

(** [err.message || "An unexpected error..."] *)
Definition messageOr (m : option string) (fallback : string) : string :=
  match m with
  | None => fallback
  | Some EmptyString => fallback
  | Some text => text
  end.

(** [err.message === "API_KEY_RESET"] *)
Definition isKeyReset (err : JsError) : bool :=
  match message err with
  | Some m => String.eqb m "API_KEY_RESET"
  | None => false
  end.

(** The [catch] block of [triggerGeneration]. *)
Definition onFailure (err : JsError) (s : AppState) : AppState :=
  setStatus ERROR
    (if isKeyReset err then
       setError
         (Some "Your API key session expired or is invalid. Please select a valid key.")
         (setHasKey false s)
     else
       setError
         (Some (messageOr (message err)
                  "An unexpected error occurred during animation generation."))
         s).

(** The lines after the [await] when the promise is fulfilled. *)
Definition onSuccess (resultUrl : string) (s : AppState) : AppState :=
  setStatus COMPLETED (setVideoUrl (Some resultUrl) s).

(** The callback [(msg) => setStatusMessage(msg)], for a group of
    messages. *)
Definition onStatusUpdates (msgs : list string) (s : AppState) : AppState :=
  fold_left (fun s' msg => setStatusMessage msg s') msgs s.

(** One stretch of a generation: the messages of the first group are
    delivered; if no awaited call is left, the promise settles and the
    continuation of [triggerGeneration] runs in the same stretch.  A run
    that was cut off never settles. *)
Definition advance (segs : list (list string)) (c : Completion string)
  (s : AppState) : AppState * option Job :=
  match segs with
  | [] => (s, Some {| pending := []; completion := c |})
  | seg :: rest =>
      let s' := onStatusUpdates seg s in
      match rest with
      | _ :: _ => (s', Some {| pending := rest; completion := c |})
      | [] =>
          match c with
          | Normal resultUrl => (onSuccess resultUrl s', None)
          | Throw err => (onFailure err s', None)
          | OutOfFuel => (s', Some {| pending := []; completion := c |})
          end
      end
  end.

(** What a generation that settles as [c] after the messages [msgs] has
    done to the state when nothing else ran in between. *)
Definition settled (msgs : list string) (c : Completion string)
  (s : AppState) : AppState :=
  let s' := onStatusUpdates msgs (setError None (setStatus INITIALIZING s)) in
  match c with
  | Normal resultUrl => onSuccess resultUrl s'
  | Throw err => onFailure err s'
  | OutOfFuel => s'
  end.

(** [triggerGeneration] up to the first awaited call of the service: the
    two setters, the singleton, and the call of the method, which runs
    until it is suspended.  [None]: the image has no payload, a call that
    the model of the service, which takes a string, does not cover. *)
Definition triggerGeneration (w : World) : option World :=
  match image (app w) with
  | None => Some w
  | Some img =>
      let s := setError None (setStatus INITIALIZING (app w)) in
      let '(_, cls) := Singleton.getInstance (service w) in
      match base64 img with
      | None => None
      | Some payload =>
          let '(t, c) := run env fuel payload in
          let '(s', job) := advance (segments t) c s in
          Some {| app := s'; service := cls;
                  jobs := (jobs w ++ match job with
                                     | Some j => [j]
                                     | None => []
                                     end)%list;
                  readers := readers w |}
      end
  end.

(** The awaited call on which job [i] is suspended returns. *)
Definition resume (i : nat) (w : World) : World :=
  match nth_error (jobs w) i with
  | None => w
  | Some j =>
      let '(s, next) := advance (pending j) (completion j) (app w) in
      {| app := s; service := service w;
         jobs := (firstn i (jobs w)
                    ++ match next with Some j' => [j'] | None => [] end
                    ++ skipn (S i) (jobs w))%list;
         readers := readers w |}
  end.

(** [reset], without its last line, which clears the file input. *)
Definition reset (w : World) : World :=
  withApp
    (setError None
       (setStatus IDLE (setVideoUrl None (setImage None (app w))))) w.

(** The [disabled] attribute of the generate button, line 231. *)
Definition generateDisabled (s : AppState) : bool :=
  match image s with
  | None => true
  | Some _ =>
      match status s with
      | IDLE | ERROR | COMPLETED => false
      | _ => true
      end
  end.

(** What the result panel shows, lines 141, 171 and 264 to 306. *)
Inductive Panel : Type :=
| KeyPrompt
| VideoPlayer (src : string)
| Placeholder (shownError : option string)
| Spinner (caption : string).

Definition resultPanel (s : AppState) : Panel :=
  if negb (hasKey s) then KeyPrompt
  else
    match videoUrl s with
    | Some (String c u) => VideoPlayer (String c u)
    | _ =>
        match status s with
        | IDLE | ERROR =>
            Placeholder (if isFalsy (error s) then None else error s)
        | _ =>
            Spinner (match statusMessage s with
                     | EmptyString => "Initializing..."
                     | msg => msg
                     end)
        end
    end.

(** What can happen to the application.  A control that is not rendered
    or is disabled cannot be used; the attempt changes nothing. *)
Inductive Action : Type :=
| KeyChecked (r : Settled bool)
| KeySelected (r : Settled unit)
| PickFile (files : list File)
| ReadEnd (i : nat) (result : option string)
| ClickGenerate
| Resume (i : nat)
| ClickReset
| ClickClear.

Definition step (a : Action) (w : World) : option World :=
  match a with
  | KeyChecked r => Some (checkApiKey r w)
  | KeySelected r => Some (handleSelectKey r w)
  | PickFile files =>
      if hasKey (app w) then Some (handleImageUpload files w) else Some w
  | ReadEnd i result => Some (onloadend i result w)
  | ClickGenerate =>
      if hasKey (app w) && negb (generateDisabled (app w))
      then triggerGeneration w else Some w
  | Resume i => Some (resume i w)
  | ClickReset =>
      match image (app w) with
      | Some _ => if hasKey (app w) then Some (reset w) else Some w
      | None => Some w
      end
  | ClickClear =>
      if hasKey (app w) && negb (isFalsy (videoUrl (app w)))
      then Some (withApp (setVideoUrl None (app w)) w) else Some w
  end.



Fixpoint steps (acts : list Action) (w : World) : option World :=
  match acts with
  | [] => Some w
  | a :: acts' =>
      match step a w with
      | Some w' => steps acts' w'
      | None => None
      end
  end.

End Handlers.

(** The generate button can be used on [img], whose payload is [payload],
    and no generation is in flight. *)
Definition Armed (w : World) (img : ImagePreview) (payload : string) : Prop :=
  hasKey (app w) = true /\
  generateDisabled (app w) = false /\
  image (app w) = Some img /\
  base64 img = Some payload /\
  jobs w = [].


(** A world in which a key is selected and an image with a payload is
    loaded. *)
Definition sample : File :=
  {| fileName := "portrait.png"; fileContent := body |}.

Definition preview (payload : string) : ImagePreview :=
  {| file := sample; base64 := Some payload; url := "blob:local/0" |}.

Definition ready (payload : string) : World :=
  {| app := {| image := Some (preview payload);
               videoUrl := None; status := IDLE; statusMessage := "";
               error := None; hasKey := true |};
     service := Singleton.loaded; jobs := []; readers := [] |}.

(** The same world with the video of an earlier run. *)
Definition readyWithVideo (payload : string) : World :=
  {| app := setVideoUrl (Some "blob:local/earlier") (app (ready payload));
     service := Singleton.loaded; jobs := []; readers := [] |}.


End App.

(** * Properties *)

(** ** Substrings *)

Lemma prefix_append (a t : string) : String.prefix a (a ++ t) = true.
Proof.
  induction a as [|c a IH]; simpl.
  - destruct t; reflexivity.
  - destruct (Ascii.ascii_dec c c) as [_|n]; [exact IH | contradiction].
Qed.

Lemma prefix_inv (a s : string) :
  String.prefix a s = true -> exists t, s = (a ++ t)%string.
Proof.
  revert s; induction a as [|c a IH]; intros s H.
  - exists s; reflexivity.
  - destruct s as [|d s]; simpl in H; [discriminate|].
    destruct (Ascii.ascii_dec c d) as [->|_]; [|discriminate].
    destruct (IH s H) as [t ->]. exists t; reflexivity.
Qed.

Lemma append_assoc (a b c : string) :
  ((a ++ b) ++ c = a ++ (b ++ c))%string.
Proof. induction a as [|x a IH]; simpl; [reflexivity | now rewrite IH]. Qed.

Lemma includes_unfold (s x : string) :
  includes s x =
  if String.prefix x s then true
  else match s with
       | EmptyString => false
       | String _ s' => includes s' x
       end.
Proof. destruct s; reflexivity. Qed.

(** [includes] finds exactly the occurrences of the searched string. *)
Lemma includes_spec (s x : string) :
  includes s x = true <-> exists pre post, s = (pre ++ x ++ post)%string.
Proof.
  split.
  - induction s as [|c s IH]; rewrite includes_unfold;
      match goal with |- context [String.prefix x ?u] =>
        destruct (String.prefix x u) eqn:P end.
    + intros _. apply prefix_inv in P. destruct P as [t P].
      exists ""%string, t. exact P.
    + intros H; discriminate H.
    + intros _. apply prefix_inv in P. destruct P as [t P].
      exists ""%string, t. exact P.
    + intros H. destruct (IH H) as (pre & post & ->).
      exists (String c pre), post; reflexivity.
  - intros (pre & post & ->).
    induction pre as [|c pre IH]; rewrite includes_unfold.
    + change (""%string ++ x ++ post)%string with (x ++ post)%string.
      now rewrite prefix_append.
    + change (String c pre ++ x ++ post)%string
        with (String c (pre ++ x ++ post))%string.
      destruct (String.prefix x _); [reflexivity | exact IH].
Qed.

(** A message that contains [a ++ b] contains [b]. *)
Lemma includes_tail (s a b : string) :
  includes s (a ++ b) = true -> includes s b = true.
Proof.
  rewrite !includes_spec. intros (pre & post & ->).
  exists (pre ++ a)%string, post. now rewrite !append_assoc.
Qed.

Lemma entity_not_found_weaker (m : string) :
  includes m "entity was not found" = false ->
  includes m "Requested entity was not found" = false.
Proof.
  intros H. destruct (includes m "Requested entity was not found") eqn:E;
    [|reflexivity].
  change "Requested entity was not found"
    with ("Requested " ++ "entity was not found")%string in E.
  apply includes_tail in E. congruence.
Qed.

(** The three progress messages outside the loop. *)
Abbreviation Initializing := "Initializing video generation engine...".
Abbreviation Crafting := "Crafting visual physics and hair dynamics...".
Abbreviation Downloading := "Downloading final high-fidelity export...".

(** ** Running the monad *)

Section MonadFacts.

Context {A B C : Type}.

Lemma bind_ret_l (a : A) (f : A -> M B) n : bind (ret a) f n = f a n.
Proof. unfold bind, ret. now destruct (f a n) as [[t k] c]. Qed.

Lemma bind_ret_r (m : M A) n : bind m ret n = m n.
Proof.
  unfold bind, ret. destruct (m n) as [[t k] c].
  destruct c; rewrite ?app_nil_r; reflexivity.
Qed.

Lemma bind_assoc (m : M A) (f : A -> M B) (g : B -> M C) n :
  bind (bind m f) g n = bind m (fun a => bind (f a) g) n.
Proof.
  unfold bind. destruct (m n) as [[t1 n1] c1].
  destruct c1 as [a| |]; try reflexivity.
  destruct (f a n1) as [[t2 n2] c2].
  destruct c2 as [b| |]; try reflexivity.
  destruct (g b n2) as [[t3 n3] c3]. now rewrite app_assoc.
Qed.

(** A [catch] block sees what is thrown and nothing else. *)
Lemma try_catch_throw (e : JsError) (k : JsError -> M A) n :
  try_catch (throw e) k n = k e n.
Proof. unfold try_catch, throw. now destruct (k e n) as [[t m] c]. Qed.

Lemma try_catch_ret (a : A) (k : JsError -> M A) n :
  try_catch (ret a) k n = ret a n.
Proof. reflexivity. Qed.

Lemma try_catch_diverge (k : JsError -> M A) n :
  try_catch diverge k n = diverge n.
Proof. reflexivity. Qed.

End MonadFacts.

(** ** Reading the events of the loop *)

Section TraceFacts.

Variable h : nat -> Operation.

Lemma statuses_app t1 t2 :
  statuses (t1 ++ t2) = (statuses t1 ++ statuses t2)%list.
Proof. apply flat_map_app. Qed.

Lemma waits_app t1 t2 : waits (t1 ++ t2) = (waits t1 ++ waits t2)%list.
Proof. apply flat_map_app. Qed.

Lemma polls_app t1 t2 : polls (t1 ++ t2) = (polls t1 ++ polls t2)%list.
Proof. apply flat_map_app. Qed.

Lemma fetches_app t1 t2 :
  fetches (t1 ++ t2) = (fetches t1 ++ fetches t2)%list.
Proof. apply flat_map_app. Qed.

Lemma objectURLs_app t1 t2 :
  objectURLs (t1 ++ t2) = (objectURLs t1 ++ objectURLs t2)%list.
Proof. apply flat_map_app. Qed.

Lemma upstreamErrors_app t1 t2 :
  upstreamErrors (t1 ++ t2) = (upstreamErrors t1 ++ upstreamErrors t2)%list.
Proof. apply flat_map_app. Qed.


Lemma waits_turns i N : waits (turns h i N) = repeat 10000%Z N.
Proof.
  revert i; induction N as [|N IH]; intros i; [reflexivity|].
  cbn [turns repeat waits flat_map app]. f_equal. apply IH.
Qed.

Lemma polls_turns i N : polls (turns h i N) = map h (seq i N).
Proof.
  revert i; induction N as [|N IH]; intros i; [reflexivity|].
  cbn [turns seq map polls flat_map app]. f_equal. apply IH.
Qed.

Lemma fetches_turns i N : fetches (turns h i N) = [].
Proof.
  revert i; induction N as [|N IH]; intros i; [reflexivity|].
  cbn [turns fetches flat_map app]. apply IH.
Qed.

Lemma objectURLs_turns i N : objectURLs (turns h i N) = [].
Proof.
  revert i; induction N as [|N IH]; intros i; [reflexivity|].
  cbn [turns objectURLs flat_map app]. apply IH.
Qed.

Lemma upstreamErrors_turns i N : upstreamErrors (turns h i N) = [].
Proof.
  revert i; induction N as [|N IH]; intros i; [reflexivity|].
  cbn [turns upstreamErrors flat_map app]. apply IH.
Qed.

End TraceFacts.

(** The six messages come round again. *)
Lemma loadingMessage_mod i :
  loadingMessage i = nth (i mod 6) loadingMessages "undefined".
Proof. reflexivity. Qed.

Lemma loadingMessage_period i : loadingMessage (i + 6) = loadingMessage i.
Proof.
  unfold loadingMessage. cbn [length loadingMessages].
  replace (i + 6) with (i + 1 * 6) by lia.
  now rewrite Nat.Div0.mod_add.
Qed.

Lemma loadingMessage_In i : In (loadingMessage i) loadingMessages.
Proof.
  unfold loadingMessage. apply nth_In. cbn [length loadingMessages].
  apply Nat.mod_upper_bound. discriminate.
Qed.

Lemma NoPlayableReference_falsy operation :
  NoPlayableReference operation <-> isFalsy (downloadLink operation) = true.
Proof.
  unfold downloadLink. split.
  - intros [H | r H1 H2 | r H1 H2 | r v vs H1 H2 H3 | r v vs vd H1 H2 H3 H4
           | r v vs vd H1 H2 H3 H4].
    + now rewrite H.
    + now rewrite H1, H2.
    + now rewrite H1, H2.
    + rewrite H1, H2. cbn [nth_error]. now rewrite H3.
    + rewrite H1, H2. cbn [nth_error]. now rewrite H3, H4.
    + rewrite H1, H2. cbn [nth_error]. now rewrite H3, H4.
  - destruct (response operation) as [r|] eqn:H1; [|now constructor 1].
    destruct (generatedVideos r) as [vs|] eqn:H2;
      [|intros _; now apply (no_list _ r)].
    destruct vs as [|v vs]; [intros _; now apply (empty_list _ r)|].
    cbn [nth_error].
    destruct (video v) as [vd|] eqn:H3;
      [|intros _; now apply (no_video _ r v vs)].
    destruct (uri vd) as [u|] eqn:H4;
      [|intros _; now apply (no_uri _ r v vs vd)].
    destruct u as [|c u]; [intros _; now apply (empty_uri _ r v vs vd)|].
    intros H; discriminate H.
Qed.

(** ** The method, piece by piece *)

Section ClientFacts.

Variable env : Env.

Lemma generateCinematicAnimation_unfold fuel imageBase64 :
  generateCinematicAnimation env fuel imageBase64 =
  (new_GoogleGenAI env ;;
   onStatusUpdate Initializing ;;
   try_catch
     (operation <- call_generateVideos env (videoRequest imageBase64) ;;
      onStatusUpdate Crafting ;;
      operation <- poll_loop env fuel operation 0 ;;
      afterLoop env operation)
     catchBlock).
Proof. reflexivity. Qed.

Lemma poll_loop_unfold fuel operation messageIndex :
  poll_loop env fuel operation messageIndex =
  if done operation then ret operation
  else match fuel with
       | O => diverge
       | S fuel' =>
           sleep 10000 ;;
           onStatusUpdate (loadingMessage messageIndex) ;;
           operation' <- call_getVideosOperation env operation ;;
           poll_loop env fuel' operation' (S messageIndex)
       end.
Proof. destruct fuel; reflexivity. Qed.

(** One turn of the loop whose poll is answered. *)
Lemma poll_loop_turn fuel operation i n next :
  done operation = false ->
  getVideosOperation env n operation = Fulfilled next ->
  poll_loop env (S fuel) operation i n =
  let '(t, n', c) := poll_loop env fuel next (S i) (S n) in
  (SetTimeout 10000 :: StatusUpdate (loadingMessage i)
     :: GetVideosOperation operation (Fulfilled next) :: t, n', c).
Proof.
  intros Hd Hp. rewrite poll_loop_unfold, Hd.
  unfold bind, sleep, onStatusUpdate, call_getVideosOperation, emit, bind.
  rewrite Hp. cbn [await ret app].
  destruct (poll_loop env fuel next (S i) (S n)) as [[t n'] c].
  reflexivity.
Qed.

(** One turn of the loop whose poll throws. *)
Lemma poll_loop_turn_rejected fuel operation i n e :
  done operation = false ->
  getVideosOperation env n operation = Rejected e ->
  poll_loop env (S fuel) operation i n =
  ([SetTimeout 10000; StatusUpdate (loadingMessage i);
    GetVideosOperation operation (Rejected e)], S n, Throw e).
Proof.
  intros Hd Hp. rewrite poll_loop_unfold, Hd.
  unfold bind, sleep, onStatusUpdate, call_getVideosOperation, emit, bind.
  rewrite Hp. reflexivity.
Qed.

(** [N] answered polls, starting at turn [i], then a handle that is done. *)
Lemma poll_loop_done (h : nat -> Operation) :
  forall N fuel i,
    (forall j, i <= j < i + N ->
       done (h j) = false /\
       getVideosOperation env j (h j) = Fulfilled (h (S j))) ->
    done (h (i + N)) = true ->
    N <= fuel ->
    poll_loop env fuel (h i) i i = (turns h i N, i + N, Normal (h (i + N))).
Proof.
  induction N as [|N IH]; intros fuel i Hp Hd Hf.
  - rewrite Nat.add_0_r in *. rewrite poll_loop_unfold, Hd. reflexivity.
  - destruct fuel as [|fuel]; [lia|].
    destruct (Hp i ltac:(lia)) as [Hi Hg].
    rewrite (poll_loop_turn _ _ _ _ _ Hi Hg).
    rewrite (IH fuel (S i)).
    + cbn [turns]. now rewrite Nat.add_succ_r.
    + intros j Hj. apply Hp. lia.
    + now rewrite Nat.add_succ_r in Hd.
    + lia.
Qed.

(** [N] answered polls, then one that throws. *)
Lemma poll_loop_rejected (h : nat -> Operation) e :
  forall N fuel i,
    (forall j, i <= j < i + N ->
       done (h j) = false /\
       getVideosOperation env j (h j) = Fulfilled (h (S j))) ->
    done (h (i + N)) = false ->
    getVideosOperation env (i + N) (h (i + N)) = Rejected e ->
    N < fuel ->
    poll_loop env fuel (h i) i i =
    ((turns h i N ++
        [SetTimeout 10000; StatusUpdate (loadingMessage (i + N));
         GetVideosOperation (h (i + N)) (Rejected e)])%list,
     S (i + N), Throw e).
Proof.
  induction N as [|N IH]; intros fuel i Hp Hd He Hf;
    (destruct fuel as [|fuel]; [lia|]).
  - rewrite Nat.add_0_r in *.
    now rewrite (poll_loop_turn_rejected _ _ _ _ _ Hd He).
  - destruct (Hp i ltac:(lia)) as [Hi Hg].
    rewrite (poll_loop_turn _ _ _ _ _ Hi Hg).
    rewrite (IH fuel (S i)).
    + cbn [turns app]. now rewrite Nat.add_succ_r.
    + intros j Hj. apply Hp. lia.
    + now rewrite Nat.add_succ_r in Hd.
    + now rewrite Nat.add_succ_r in He.
    + lia.
Qed.

End ClientFacts.

(** ** The shape of every run *)

Section RunFacts.

Variable env : Env.

Lemma catchBlock_run e n :
  catchBlock e n = (caught (Throw e), n, rethrown e).
Proof.
  unfold catchBlock, console_error, bind, emit, rethrown, caught.
  destruct (isKeyRejection e); reflexivity.
Qed.

(** The five ways the download part can go. *)
Lemma afterLoop_run operation n :
  afterLoop env operation n =
  if isFalsy (downloadLink operation) then
    ([], n, Throw (Error "Failed to retrieve generated video URL."))
  else
    let url := (interpolate (downloadLink operation) ++ "&key="
                  ++ interpolate (API_KEY env))%string in
    match fetch env url with
    | Rejected e =>
        ([StatusUpdate Downloading; Fetch url (Rejected e)], n, Throw e)
    | Fulfilled r =>
        if ok r then
          match blob r with
          | Rejected e =>
              ([StatusUpdate Downloading; Fetch url (Fulfilled r);
                ReadBlob (Rejected e)], n, Throw e)
          | Fulfilled b =>
              ([StatusUpdate Downloading; Fetch url (Fulfilled r);
                ReadBlob (Fulfilled b);
                CreateObjectURL b (createObjectURL env b)],
               n, Normal (createObjectURL env b))
          end
        else
          ([StatusUpdate Downloading; Fetch url (Fulfilled r)], n,
           Throw (Error "Failed to fetch the video data."))
    end.
Proof.
  unfold afterLoop.
  destruct (isFalsy (downloadLink operation)); [reflexivity|].
  unfold bind, onStatusUpdate, call_fetch, call_blob, call_createObjectURL,
    emit, bind.
  cbv zeta.
  destruct (fetch env _) as [r|e]; [|reflexivity].
  cbn [await ret throw app].
  destruct (ok r); cbn [negb]; [|reflexivity].
  destruct (blob r) as [b|e]; reflexivity.
Qed.

(** Every run, whatever the service answers and however long the model
    follows the loop. *)
Lemma run_cases fuel imageBase64 :
  run env fuel imageBase64 =
  let req := videoRequest imageBase64 in
  let key := API_KEY env in
  match newGoogleGenAI env key with
  | Rejected e => ([NewGoogleGenAI key (Rejected e)], Throw e)
  | Fulfilled u =>
  match generateVideos env req with
  | Rejected e =>
      (NewGoogleGenAI key (Fulfilled u)
         :: StatusUpdate Initializing :: GenerateVideos req (Rejected e)
         :: caught (Throw e), rethrown e)
  | Fulfilled op0 =>
      let '(t, n, c) := poll_loop env fuel op0 0 0 in
      match c with
      | Normal op =>
          let '(t2, _, c2) := afterLoop env op n in
          (NewGoogleGenAI key (Fulfilled u)
             :: StatusUpdate Initializing :: GenerateVideos req (Fulfilled op0)
             :: StatusUpdate Crafting :: t ++ t2 ++ caught c2, settle c2)%list
      | Throw e =>
          (NewGoogleGenAI key (Fulfilled u)
             :: StatusUpdate Initializing :: GenerateVideos req (Fulfilled op0)
             :: StatusUpdate Crafting :: t ++ caught (Throw e),
           rethrown e)%list
      | OutOfFuel =>
          (NewGoogleGenAI key (Fulfilled u)
             :: StatusUpdate Initializing :: GenerateVideos req (Fulfilled op0)
             :: StatusUpdate Crafting :: t, OutOfFuel)
      end
  end
  end.
Proof.
  unfold run. rewrite generateCinematicAnimation_unfold.
  cbv zeta.
  unfold bind at 1, new_GoogleGenAI, bind at 1, emit at 1.
  destruct (newGoogleGenAI env (API_KEY env)) as [u|e0];
    cbn [await ret throw app]; [|reflexivity].
  unfold bind at 1, onStatusUpdate at 1, emit at 1.
  unfold try_catch, bind at 1, call_generateVideos, bind at 1, emit at 1.
  destruct (generateVideos env (videoRequest imageBase64)) as [op0|e];
    cbn [await ret throw app].
  - unfold bind at 1, onStatusUpdate at 1, emit at 1, bind at 1.
    destruct (poll_loop env fuel op0 0 0) as [[t n] c].
    destruct c as [op|e|].
    + destruct (afterLoop env op n) as [[t2 n2] c2].
      destruct c2 as [v|e|]; cbn [caught settle app].
      * now rewrite app_nil_r.
      * rewrite catchBlock_run. cbn [caught app].
        now rewrite <- app_assoc.
      * now rewrite app_nil_r.
    + rewrite catchBlock_run. reflexivity.
    + reflexivity.
  - rewrite catchBlock_run. reflexivity.
Qed.

(** The run in which the operation is seen not done [N] times, then
    done. *)
Lemma run_done fuel imageBase64 h N :
  DoneAfter env imageBase64 h N ->
  N <= fuel ->
  run env fuel imageBase64 =
  let '(t2, _, c2) := afterLoop env (h N) N in
  (NewGoogleGenAI (API_KEY env) (Fulfilled tt)
     :: StatusUpdate Initializing
     :: GenerateVideos (videoRequest imageBase64) (Fulfilled (h 0))
     :: StatusUpdate Crafting :: turns h 0 N ++ t2 ++ caught c2,
   settle c2)%list.
Proof.
  intros ((Hc & Hs) & Hp & Hd) Hf. rewrite run_cases. cbv zeta.
  unfold Constructed in Hc. rewrite Hc, Hs.
  rewrite (poll_loop_done env h N fuel 0); auto.
  intros j Hj. apply Hp. lia.
Qed.

(** The run in which the submission or a poll throws. *)
Lemma run_raises fuel imageBase64 e n :
  Raises env imageBase64 e n ->
  n <= fuel ->
  outcome env fuel imageBase64 = rethrown e /\
  upstreamErrors (trace env fuel imageBase64) = [e].
Proof.
  intros HR Hf. unfold outcome, trace. rewrite run_cases. cbv zeta.
  destruct HR as [Hc Hs | h N [Hc Hs] Hp Hd He]; unfold Constructed in Hc;
    rewrite Hc, Hs.
  - split; reflexivity.
  - rewrite (poll_loop_rejected env h e N fuel 0); auto.
    + split; [reflexivity|]. cbn [fst caught].
      change (upstreamErrors (?a :: ?b :: ?c :: ?d :: ?t))
        with (upstreamErrors t).
      now rewrite !upstreamErrors_app, upstreamErrors_turns.
    + intros j Hj. apply Hp. lia.
Qed.

End RunFacts.

(** ** Errors of the submission and of the polls *)

Section UpstreamErrors.

Variable env : Env.

Lemma isKeyRejection_lacks e :
  lacks e "Requested entity was not found" -> isKeyRejection e = false.
Proof.
  unfold lacks, isKeyRejection. intros H.
  destruct (message e) as [m|]; [now apply H | reflexivity].
Qed.

Lemma lacks_short_long e :
  lacks e "entity was not found" -> lacks e "Requested entity was not found".
Proof.
  intros H m Hm. apply entity_not_found_weaker. now apply H.
Qed.

(** C1, as the code has it: when the submission or a poll throws an error
    whose message contains "Requested entity was not found", anywhere in
    it and whatever else it says, the method throws a new error whose
    message is "API_KEY_RESET". *)
Theorem key_rejection_is_remapped imageBase64 e m n fuel :
  Raises env imageBase64 e n ->
  n <= fuel ->
  message e = Some m ->
  includes m "Requested entity was not found" = true ->
  outcome env fuel imageBase64 = Throw (Error "API_KEY_RESET").
Proof.
  intros HR Hf Hm Hi.
  destruct (run_raises env fuel imageBase64 e n HR Hf) as [-> _].
  unfold rethrown, isKeyRejection. now rewrite Hm, Hi.
Qed.

(** C6: when the submission or a poll throws an error whose message does
    not contain the phrase of the [catch] block (or has no message), the
    method throws that very error, and it is the only error the service
    raised.  An error that lacks the shorter phrase "entity was not found"
    lacks the longer one, so the statement holds for either phrase. *)
Theorem other_errors_propagate_verbatim imageBase64 e n fuel :
  Raises env imageBase64 e n ->
  n <= fuel ->
  lacks e "Requested entity was not found" \/ lacks e "entity was not found" ->
  outcome env fuel imageBase64 = Throw e /\
  upstreamErrors (trace env fuel imageBase64) = [e].
Proof.
  intros HR Hf HL.
  assert (HK : isKeyRejection e = false).
  { apply isKeyRejection_lacks. destruct HL as [HL|HL];
      [exact HL | now apply lacks_short_long]. }
  destruct (run_raises env fuel imageBase64 e n HR Hf) as [-> ->].
  unfold rethrown. now rewrite HK.
Qed.

End UpstreamErrors.

(** C1 fails as stated: a submission refused with "The entity was not
    found." contains "entity was not found", and the method rethrows the
    error as it is. *)
Lemma short_phrase_is_not_remapped :
  Raises refusing "aGVsbG8=" shortNotFound 0 /\
  message shortNotFound = Some "The entity was not found." /\
  includes "The entity was not found." "entity was not found" = true /\
  outcome refusing 0 "aGVsbG8=" = Throw shortNotFound /\
  outcome refusing 0 "aGVsbG8=" <> Throw (Error "API_KEY_RESET").
Proof.
  split; [constructor; reflexivity|].
  repeat split; try reflexivity.
  intros H; vm_compute in H; discriminate H.
Qed.

Lemma key_rejection_is_remapped_witness :
  outcome expiring 1 "aGVsbG8=" = Throw (Error "API_KEY_RESET").
Proof.
  apply (key_rejection_is_remapped expiring "aGVsbG8=" keyRejected
           "404 NOT_FOUND: Requested entity was not found." 1 1).
  - apply (poll_raises _ _ _ (fun _ => pendingOp "op") 0).
    + split; reflexivity.
    + intros j Hj. lia.
    + reflexivity.
    + reflexivity.
  - lia.
  - reflexivity.
  - reflexivity.
Defined.

Lemma other_errors_propagate_verbatim_witness :
  outcome throttling 1 "aGVsbG8=" = Throw quotaExceeded /\
  upstreamErrors (trace throttling 1 "aGVsbG8=") = [quotaExceeded].
Proof.
  apply (other_errors_propagate_verbatim throttling "aGVsbG8="
           quotaExceeded 1 1).
  - apply (poll_raises _ _ _ (fun _ => pendingOp "op") 0).
    + split; reflexivity.
    + intros j Hj. lia.
    + reflexivity.
    + reflexivity.
  - lia.
  - left. intros m Hm. injection Hm as <-. reflexivity.
Defined.

(** ** Runs in which the operation completes *)

Section CompletedRuns.

Variable env : Env.

(** Split a trace at the loop, to read it part by part. *)
Ltac at_loop :=
  match goal with
  | |- context [?a :: ?b :: ?c :: ?d :: (turns ?h 0 ?N ++ ?t)%list] =>
      change (a :: b :: c :: d :: (turns h 0 N ++ t)%list)
        with ([a; b; c; d] ++ turns h 0 N ++ t)%list
  end.




(** C4: when the operation completes without a usable link (in particular
    with an empty result list, or a first item without video or without
    uri), the method throws its own error "Failed to retrieve generated
    video URL."; the service raised no error and nothing is fetched. *)
Theorem missing_artifact fuel imageBase64 h N :
  DoneAfter env imageBase64 h N ->
  N <= fuel ->
  NoPlayableReference (h N) ->
  outcome env fuel imageBase64 =
    Throw (Error "Failed to retrieve generated video URL.") /\
  fetches (trace env fuel imageBase64) = [] /\
  upstreamErrors (trace env fuel imageBase64) = [].
Proof.
  intros HD Hf HN. apply NoPlayableReference_falsy in HN.
  unfold outcome, trace. rewrite (run_done env fuel _ h N HD Hf).
  rewrite afterLoop_run, HN. cbn [fst snd settle caught].
  split; [reflexivity|]. at_loop. split.
  - now rewrite !fetches_app, fetches_turns.
  - now rewrite !upstreamErrors_app, upstreamErrors_turns.
Qed.

(** C5: when the completed operation carries a link and the download
    answers with a failure status, the method throws "Failed to fetch the
    video data."; the fetch was issued once, it is the last call of the
    run, and no object URL is created. *)
Theorem download_failed fuel imageBase64 h N u r :
  DoneAfter env imageBase64 h N ->
  N <= fuel ->
  downloadLink (h N) = Some u ->
  u <> EmptyString ->
  fetch env (u ++ "&key=" ++ interpolate (API_KEY env)) = Fulfilled r ->
  ok r = false ->
  outcome env fuel imageBase64 = Throw (Error "Failed to fetch the video data.") /\
  fetches (trace env fuel imageBase64)
    = [(u ++ "&key=" ++ interpolate (API_KEY env))%string] /\
  objectURLs (trace env fuel imageBase64) = [] /\
  exists front,
    trace env fuel imageBase64 =
      (front ++
         [Fetch (u ++ "&key=" ++ interpolate (API_KEY env)) (Fulfilled r);
          ConsoleError "Video Generation Error:"
            (Error "Failed to fetch the video data.")])%list /\
    fetches front = [].
Proof.
  intros HD Hf HL Hu HF Hok.
  assert (HT : isFalsy (downloadLink (h N)) = false).
  { rewrite HL. destruct u; [contradiction | reflexivity]. }
  unfold outcome, trace. rewrite (run_done env fuel _ h N HD Hf).
  rewrite afterLoop_run, HT. cbv zeta. rewrite HL.
  cbn [interpolate]. rewrite HF, Hok. cbn [fst snd settle caught].
  set (url := (u ++ "&key=" ++ interpolate (API_KEY env))%string).
  set (pre := [NewGoogleGenAI (API_KEY env) (Fulfilled tt);
               StatusUpdate Initializing;
               GenerateVideos (videoRequest imageBase64) (Fulfilled (h 0));
               StatusUpdate Crafting]).
  assert (E : (NewGoogleGenAI (API_KEY env) (Fulfilled tt)
      :: StatusUpdate Initializing
      :: GenerateVideos (videoRequest imageBase64) (Fulfilled (h 0))
      :: StatusUpdate Crafting
      :: turns h 0 N ++
         [StatusUpdate Downloading; Fetch url (Fulfilled r)] ++
         [ConsoleError "Video Generation Error:"
            (Error "Failed to fetch the video data.")])%list
     = ((pre ++ turns h 0 N ++ [StatusUpdate Downloading]) ++
         [Fetch url (Fulfilled r);
          ConsoleError "Video Generation Error:"
            (Error "Failed to fetch the video data.")])%list).
  { unfold pre. cbn [app]. now rewrite <- !app_assoc. }
  rewrite E.
  assert (F : fetches (pre ++ turns h 0 N ++ [StatusUpdate Downloading]) = []).
  { now rewrite !fetches_app, fetches_turns. }
  split; [reflexivity|]. split; [|split].
  - now rewrite fetches_app, F.
  - now rewrite !objectURLs_app, objectURLs_turns.
  - eexists. split; [reflexivity | exact F].
Qed.

(** C2, as the code has it: submission not done, first poll done with a
    link, download successful.  The method returns the object URL made
    from the downloaded body, and the progress callback receives four
    strings: the two of the start, the first of the six cyclic messages,
    and the one of the download. *)
Theorem one_poll_run fuel imageBase64 h u r b :
  DoneAfter env imageBase64 h 1 ->
  1 <= fuel ->
  downloadLink (h 1) = Some u ->
  u <> EmptyString ->
  fetch env (u ++ "&key=" ++ interpolate (API_KEY env)) = Fulfilled r ->
  ok r = true ->
  blob r = Fulfilled b ->
  outcome env fuel imageBase64 = Normal (createObjectURL env b) /\
  objectURLs (trace env fuel imageBase64) = [createObjectURL env b] /\
  statuses (trace env fuel imageBase64) =
    [Initializing; Crafting; "Simulating mountain wind patterns...";
     Downloading].
Proof.
  intros HD Hf HL Hu HF Hok Hb.
  assert (HT : isFalsy (downloadLink (h 1)) = false).
  { rewrite HL. destruct u; [contradiction | reflexivity]. }
  unfold outcome, trace. rewrite (run_done env fuel _ h 1 HD Hf).
  rewrite afterLoop_run, HT. cbv zeta. rewrite HL.
  cbn [interpolate]. rewrite HF, Hok, Hb.
  repeat split.
Qed.

End CompletedRuns.

(** C2 fails as stated: in the scenario of the specification the callback
    receives four strings, so no choice of the middle one gives the
    sequence of three. *)
Lemma scenario_emits_four_messages :
  DoneAfter scenario "aGVsbG8=" scenarioHandles 1 /\
  outcome scenario 1 "aGVsbG8=" = Normal (createObjectURL scenario body) /\
  statuses (trace scenario 1 "aGVsbG8=") =
    ["Initializing video generation engine...";
     "Crafting visual physics and hair dynamics...";
     "Simulating mountain wind patterns...";
     "Downloading final high-fidelity export..."] /\
  ~ (exists flavor,
       statuses (trace scenario 1 "aGVsbG8=") =
         ["Initializing video generation engine..."; flavor;
          "Downloading final high-fidelity export..."]).
Proof.
  split; [|split; [|split]].
  - split; [split; reflexivity|]. split; [|reflexivity].
    intros j Hj. assert (j = 0) as -> by lia. split; reflexivity.
  - reflexivity.
  - reflexivity.
  - intros [flavor H]. vm_compute in H. discriminate H.
Qed.

Lemma one_poll_run_witness :
  outcome scenario 1 "aGVsbG8=" = Normal "blob:local/1" /\
  objectURLs (trace scenario 1 "aGVsbG8=") = ["blob:local/1"] /\
  statuses (trace scenario 1 "aGVsbG8=") =
    ["Initializing video generation engine...";
     "Crafting visual physics and hair dynamics...";
     "Simulating mountain wind patterns...";
     "Downloading final high-fidelity export..."].
Proof.
  apply (one_poll_run scenario 1 "aGVsbG8=" scenarioHandles
           "https://x/video123"
           {| ok := true; blob := Fulfilled body |} body).
  - split; [split; reflexivity|]. split; [|reflexivity].
    intros j Hj. assert (j = 0) as -> by lia. split; reflexivity.
  - lia.
  - reflexivity.
  - discriminate.
  - reflexivity.
  - reflexivity.
  - reflexivity.
Defined.



Lemma missing_artifact_witness :
  outcome emptyHanded 2 "aGVsbG8=" =
    Throw (Error "Failed to retrieve generated video URL.") /\
  fetches (trace emptyHanded 2 "aGVsbG8=") = [] /\
  upstreamErrors (trace emptyHanded 2 "aGVsbG8=") = [].
Proof.
  apply (missing_artifact emptyHanded 2 "aGVsbG8=" emptyHandedHandles 2).
  - split; [split; reflexivity|]. split; [|reflexivity].
    intros j Hj. do 2 (destruct j as [|j]; [split; reflexivity|]). lia.
  - lia.
  - apply (empty_list _ {| generatedVideos := Some [] |}); reflexivity.
Defined.

Lemma download_failed_witness :
  outcome unreachable 1 "aGVsbG8=" =
    Throw (Error "Failed to fetch the video data.") /\
  fetches (trace unreachable 1 "aGVsbG8=") = ["https://x/video123&key=k3y"] /\
  objectURLs (trace unreachable 1 "aGVsbG8=") = [].
Proof.
  destruct (download_failed unreachable 1 "aGVsbG8=" scenarioHandles 1
              "https://x/video123" forbidden) as (O & F & U & _).
  - split; [split; reflexivity|]. split; [|reflexivity].
    intros j Hj. assert (j = 0) as -> by lia. split; reflexivity.
  - lia.
  - reflexivity.
  - discriminate.
  - reflexivity.
  - reflexivity.
  - split; [exact O|]. split; [exact F | exact U].
Defined.

(** ** The order of the calls *)

Section CallOrder.

Variable env : Env.

Lemma phase_after_app p t1 t2 :
  phase_after p (t1 ++ t2) = phase_after (phase_after p t1) t2.
Proof. apply fold_left_app. Qed.

Lemma ordered_app p t1 t2 :
  ordered env p (t1 ++ t2) <->
  ordered env p t1 /\ ordered env (phase_after p t1) t2.
Proof.
  revert p; induction t1 as [|e t1 IH]; intros p; cbn [app ordered].
  - unfold phase_after; cbn [fold_left]. tauto.
  - rewrite IH. unfold phase_after; cbn [fold_left]. tauto.
Qed.

Lemma ordered_idle t :
  ordered env Idle t -> submissions t = [] -> phase_after Idle t = Idle.
Proof.
  induction t as [|e t IH]; [reflexivity|].
  cbn [ordered]. intros [A O] E.
  destruct e; cbn [allowed] in A; try contradiction;
    try (apply IH; [exact O | exact E]).
  discriminate E.
Qed.

(** What [ordered] says: a poll comes after a submission... *)
Lemma ordered_poll_after_submission t1 op res t2 :
  ordered env Idle (t1 ++ GetVideosOperation op res :: t2) ->
  submissions t1 <> [].
Proof.
  rewrite ordered_app. cbn [ordered]. intros (O & A & _) E.
  rewrite (ordered_idle t1 O E) in A. exact A.
Qed.

(** ...and hands over the handle last returned, which is not done... *)
Lemma ordered_poll_handle p t1 op res t2 :
  ordered env p (t1 ++ GetVideosOperation op res :: t2) ->
  phase_after p t1 = Holding op /\ done op = false.
Proof.
  rewrite ordered_app. cbn [ordered]. intros (_ & A & _).
  destruct (phase_after p t1) as [|cur|]; cbn [allowed] in A;
    try contradiction.
  destruct A as [-> D]. now split.
Qed.

(** ...the download is issued for the handle last returned, once done... *)
Lemma ordered_fetch_handle p t1 url res t2 :
  ordered env p (t1 ++ Fetch url res :: t2) ->
  exists cur, phase_after p t1 = Holding cur /\ done cur = true /\
    url = (interpolate (downloadLink cur) ++ "&key="
             ++ interpolate (API_KEY env))%string.
Proof.
  rewrite ordered_app. cbn [ordered]. intros (_ & A & _).
  destruct (phase_after p t1) as [|cur|]; cbn [allowed] in A;
    try contradiction.
  exists cur. tauto.
Qed.

(** ...and neither a poll nor a second download follows the download. *)
Lemma ordered_closed t :
  ordered env Closed t -> polls t = [] /\ fetches t = [] /\ submissions t = [].
Proof.
  induction t as [|e t IH]; [now repeat split|].
  cbn [ordered]. intros [A O].
  destruct e; cbn [allowed] in A; try contradiction;
    cbn [advance] in O; apply IH in O; exact O.
Qed.

Lemma ordered_nothing_after_fetch p t1 url res t2 :
  ordered env p (t1 ++ Fetch url res :: t2) ->
  polls t2 = [] /\ fetches t2 = [] /\ submissions t2 = [].
Proof.
  rewrite ordered_app. cbn [ordered advance]. intros (_ & _ & O).
  now apply ordered_closed.
Qed.

(** The loop, for any service and any amount of fuel. *)
Lemma poll_loop_ordered fuel :
  forall operation i n,
    let '(t, _, c) := poll_loop env fuel operation i n in
    ordered env (Holding operation) t /\
    submissions t = [] /\ fetches t = [] /\ objectURLs t = [] /\
    match c with
    | Normal op' => phase_after (Holding operation) t = Holding op' /\
                    done op' = true
    | _ => True
    end.
Proof.
  induction fuel as [|fuel IH]; intros operation i n.
  - rewrite poll_loop_unfold.
    destruct (done operation) eqn:D; cbn; repeat split; auto.
  - destruct (done operation) eqn:D.
    + rewrite poll_loop_unfold, D. cbn. repeat split; auto.
    + destruct (getVideosOperation env n operation) as [next|e] eqn:G.
      * rewrite (poll_loop_turn env fuel operation i n next D G).
        specialize (IH next (S i) (S n)).
        destruct (poll_loop env fuel next (S i) (S n)) as [[t n'] c].
        destruct IH as (O & S1 & F1 & U1 & P).
        cbn [ordered allowed advance answered].
        repeat split; auto.
      * rewrite (poll_loop_turn_rejected env fuel operation i n e D G).
        cbn. repeat split; auto.
Qed.

(** The download part, entered with a handle that is done. *)
Lemma afterLoop_ordered operation n :
  done operation = true ->
  let '(t, _, c) := afterLoop env operation n in
  ordered env (Holding operation) (t ++ caught c) /\
  submissions (t ++ caught c) = [] /\
  match settle c with
  | Normal _ => length (fetches (t ++ caught c)) = 1
  | _ => length (fetches (t ++ caught c)) <= 1
  end.
Proof.
  intros D. rewrite afterLoop_run.
  destruct (isFalsy (downloadLink operation)).
  { cbn. unfold rethrown. cbn. repeat split; auto. }
  cbv zeta. destruct (fetch env _) as [r|e].
  - destruct (ok r).
    + destruct (blob r) as [b|e]; cbn [app caught ordered allowed advance];
        (split; [tauto|]); (split; [reflexivity|]); cbn [settle].
      * reflexivity.
      * unfold rethrown. destruct (isKeyRejection e); cbn; lia.
    + cbn [app caught ordered allowed advance].
      split; [tauto|]. split; [reflexivity|]. cbn. lia.
  - cbn [app caught ordered allowed advance].
    split; [tauto|]. split; [reflexivity|]. cbn [settle].
    unfold rethrown. destruct (isKeyRejection e); cbn; lia.
Qed.

Lemma rethrown_not_normal e :
  match rethrown e with Normal _ => False | _ => True end.
Proof. unfold rethrown. now destruct (isKeyRejection e). Qed.

(** C7: in every run the calls follow the protocol [ordered]: the
    submission comes first; each poll hands over the handle that the
    preceding call returned, after that call answered; the download is
    issued for the handle that was last returned and is done, and no call
    follows it.  A run that returns has fetched exactly once, any other
    run at most once. *)
Theorem calls_are_ordered fuel imageBase64 :
  ordered env Idle (trace env fuel imageBase64) /\
  match outcome env fuel imageBase64 with
  | Normal _ => length (fetches (trace env fuel imageBase64)) = 1
  | _ => length (fetches (trace env fuel imageBase64)) <= 1
  end.
Proof.
  unfold trace, outcome. rewrite run_cases. cbv zeta.
  destruct (newGoogleGenAI env (API_KEY env)) as [u|e0];
    [|cbn; split; [auto | lia]].
  destruct (generateVideos env (videoRequest imageBase64)) as [op0|e].
  - pose proof (poll_loop_ordered fuel op0 0 0) as L.
    destruct (poll_loop env fuel op0 0 0) as [[t n] c].
    destruct L as (O & S1 & F1 & U1 & P).
    destruct c as [op|e|]; cbn [fst snd].
    + destruct P as [P D].
      pose proof (afterLoop_ordered op n D) as A.
      destruct (afterLoop env op n) as [[t2 n2] c2].
      destruct A as (O2 & S2 & F2).
      cbn [fst snd]. split.
      * cbn [ordered allowed advance answered]. repeat split.
        apply ordered_app. rewrite P. now split.
      * change (fetches (?a :: ?b :: ?c :: ?d :: ?x)) with (fetches x).
        rewrite fetches_app, F1. exact F2.
    + split.
      * cbn [ordered allowed advance answered]. repeat split.
        apply ordered_app. split; [exact O|]. cbn. auto.
      * change (fetches (?a :: ?b :: ?c :: ?d :: ?x)) with (fetches x).
        rewrite fetches_app, F1. cbn.
        pose proof (rethrown_not_normal e).
        destruct (rethrown e); [contradiction | lia | lia].
    + split.
      * cbn [ordered allowed advance answered]. now repeat split.
      * change (fetches (?a :: ?b :: ?c :: ?d :: ?x)) with (fetches x).
        rewrite F1. cbn. lia.
  - cbn [fst snd]. split; [cbn; auto|].
    cbn. pose proof (rethrown_not_normal e).
    destruct (rethrown e); [contradiction | lia | lia].
Qed.

End CallOrder.

(** ** The start of every run *)

Section Start.

Variable env : Env.

(** C8: whenever the submission returns a handle, the next event is the
    message "Crafting visual physics and hair dynamics...", before any
    wait or poll; that message is none of the six cyclic ones; and a run
    that returns has called the progress callback at least three times. *)
Theorem crafting_follows_submission fuel imageBase64 :
  (forall op0,
     Constructed env ->
     generateVideos env (videoRequest imageBase64) = Fulfilled op0 ->
     exists rest,
       trace env fuel imageBase64 =
         NewGoogleGenAI (API_KEY env) (Fulfilled tt)
           :: StatusUpdate Initializing
           :: GenerateVideos (videoRequest imageBase64) (Fulfilled op0)
           :: StatusUpdate Crafting :: rest) /\
  ~ In Crafting loadingMessages /\
  (forall url,
     outcome env fuel imageBase64 = Normal url ->
     3 <= length (statuses (trace env fuel imageBase64))).
Proof.
  split; [|split].
  - intros op0 Hc H. unfold trace. rewrite run_cases. cbv zeta.
    unfold Constructed in Hc. rewrite Hc, H.
    destruct (poll_loop env fuel op0 0 0) as [[t n] c].
    destruct c as [op|e|].
    + destruct (afterLoop env op n) as [[t2 n2] c2]. eexists; reflexivity.
    + eexists; reflexivity.
    + eexists; reflexivity.
  - cbn [In loadingMessages]. intros H.
    repeat (destruct H as [H|H]; [discriminate H|]). exact H.
  - intros url. unfold trace, outcome. rewrite run_cases. cbv zeta.
    assert (K : forall e, rethrown e <> Normal url).
    { intros e. unfold rethrown. destruct (isKeyRejection e); discriminate. }
    destruct (newGoogleGenAI env (API_KEY env)) as [u|e0];
      [|intros H; discriminate H].
    destruct (generateVideos env (videoRequest imageBase64)) as [op0|e];
      [|intros H; now apply K in H].
    destruct (poll_loop env fuel op0 0 0) as [[t n] c].
    destruct c as [op|e|]; cbn [fst snd];
      [|intros H; now apply K in H|intros H; discriminate H].
    rewrite afterLoop_run.
    destruct (isFalsy (downloadLink op)); [intros H; now apply K in H|].
    cbv zeta.
    destruct (fetch env _) as [r|e]; [|intros H; now apply K in H].
    destruct (ok r); [|intros H; now apply K in H].
    destruct (blob r) as [b|e]; [|intros H; now apply K in H].
    intros _. cbn [fst caught].
    change (statuses (?a :: StatusUpdate ?m1 :: ?c :: StatusUpdate ?m2 :: ?x))
      with (m1 :: m2 :: statuses x).
    rewrite statuses_app, !length_cons, length_app. cbn. lia.
Qed.

(** The download submits nothing. *)
Lemma afterLoop_submits_nothing operation n :
  let '(t, _, c) := afterLoop env operation n in
  submissions (t ++ caught c) = [].
Proof.
  rewrite afterLoop_run.
  destruct (isFalsy (downloadLink operation)); [reflexivity|].
  cbv zeta. destruct (fetch env _) as [r|e]; [|reflexivity].
  destruct (ok r); [|reflexivity].
  destruct (blob r); reflexivity.
Qed.

Lemma submissions_app t1 t2 :
  submissions (t1 ++ t2) = (submissions t1 ++ submissions t2)%list.
Proof. apply flat_map_app. Qed.

(** A run submits at most once, and then the request built from the
    image. *)
Lemma submissions_run fuel imageBase64 :
  submissions (trace env fuel imageBase64) = [] \/
  submissions (trace env fuel imageBase64) = [videoRequest imageBase64].
Proof.
  unfold trace. rewrite run_cases. cbv zeta.
  destruct (newGoogleGenAI env (API_KEY env)) as [u|e0];
    [|left; reflexivity].
  right.
  destruct (generateVideos env (videoRequest imageBase64)) as [op0|e];
    [|reflexivity].
  pose proof (poll_loop_ordered env fuel op0 0 0) as L.
  destruct (poll_loop env fuel op0 0 0) as [[t n] c].
  destruct L as (_ & S1 & _).
  destruct c as [op|e|]; cbn [fst].
  - pose proof (afterLoop_submits_nothing op n) as A.
    destruct (afterLoop env op n) as [[t2 n2] c2]. cbn [fst].
    change (submissions (?a :: ?b :: GenerateVideos ?r ?o :: ?d :: ?x))
      with (r :: submissions x).
    now rewrite submissions_app, S1, A.
  - change (submissions (?a :: ?b :: GenerateVideos ?r ?o :: ?d :: ?x))
      with (r :: submissions x).
    now rewrite submissions_app, S1.
  - change (submissions (?a :: ?b :: GenerateVideos ?r ?o :: ?d :: ?x))
      with (r :: submissions x).
    now rewrite S1.
Qed.

(** C9: whatever the image, a request sent upstream is the only one of
    the run; it declares "image/png" and carries the fixed model, prompt
    and configuration (one video, 1080p, 16:9); only [imageBytes] comes
    from the caller. *)
Theorem request_is_fixed fuel imageBase64 req :
  In req (submissions (trace env fuel imageBase64)) ->
  submissions (trace env fuel imageBase64) = [req] /\
  imageBytes (image req) = imageBase64 /\
  mimeType (image req) = "image/png" /\
  model req = "veo-3.1-fast-generate-preview" /\
  prompt req = PROMPT /\
  config req = {| numberOfVideos := 1;
                  resolution := "1080p";
                  aspectRatio := "16:9" |}.
Proof.
  intros H.
  destruct (submissions_run fuel imageBase64) as [E|E]; rewrite E in H |- *.
  - contradiction.
  - destruct H as [<-|[]]. now repeat split.
Qed.

End Start.

Lemma crafting_follows_submission_witness :
  trace immediate 0 "aGVsbG8=" =
    NewGoogleGenAI (Some "k3y") (Fulfilled tt)
      :: StatusUpdate "Initializing video generation engine..."
      :: GenerateVideos (videoRequest "aGVsbG8=")
           (Fulfilled (finishedOp "op" [videoAt "https://x/video123"]))
      :: StatusUpdate "Crafting visual physics and hair dynamics..."
      :: skipn 4 (trace immediate 0 "aGVsbG8=") /\
  3 <= length (statuses (trace immediate 0 "aGVsbG8=")).
Proof.
  destruct (crafting_follows_submission immediate 0 "aGVsbG8=")
    as (A & _ & B).
  split.
  - destruct (A (finishedOp "op" [videoAt "https://x/video123"])
                eq_refl eq_refl) as [rest E].
    rewrite E. reflexivity.
  - apply (B "blob:local/1"). reflexivity.
Defined.

Lemma request_is_fixed_witness :
  submissions (trace scenario 1 "aGVsbG8=") = [videoRequest "aGVsbG8="] /\
  mimeType (image (videoRequest "aGVsbG8=")) = "image/png".
Proof.
  destruct (request_is_fixed scenario 1 "aGVsbG8=" (videoRequest "aGVsbG8="))
    as (S & _ & M & _).
  - left. reflexivity.
  - split; [exact S | exact M].
Defined.

(** ** The singleton *)

Module SingletonFacts.
Import Singleton.

Lemma getInstance_sets s :
  instance (snd (getInstance s)) = Some (fst (getInstance s)).
Proof.
  unfold getInstance. destruct (instance s) as [r|] eqn:E; cbn; auto.
Qed.

Lemma getInstance_again s :
  getInstance (snd (getInstance s)) = getInstance s.
Proof.
  unfold getInstance at 2 3.
  destruct (instance s) as [r|] eqn:E; cbn [new fst snd].
  - unfold getInstance. now rewrite E.
  - reflexivity.
Qed.

(** Once the field is set, every later call returns its content. *)
Lemma exec_set acts :
  forall s r, instance s = Some r ->
    forall x, In x (exec acts s) -> x = r.
Proof.
  induction acts as [|a acts IH]; intros s r E x Hx; [contradiction|].
  destruct a; cbn [exec] in Hx.
  - unfold getInstance in Hx. rewrite E in Hx.
    destruct Hx as [<-|Hx]; [reflexivity | now apply (IH s r)].
  - apply (IH _ r) in Hx; [exact Hx | exact E].
Qed.

(** C10: whatever the application does between the calls, any two calls
    of [getInstance] return the same object; and a call that follows
    another changes nothing and returns what the first returned. *)
Theorem getInstance_idempotent acts s r1 r2 :
  In r1 (exec acts s) ->
  In r2 (exec acts s) ->
  r1 = r2 /\ getInstance (snd (getInstance s)) = getInstance s.
Proof.
  intros H1 H2. split; [|apply getInstance_again].
  revert s H1 H2. induction acts as [|a acts IH]; intros s H1 H2;
    [contradiction|].
  destruct a; cbn [exec] in H1, H2.
  - pose proof (getInstance_sets s) as E.
    destruct (getInstance s) as [r s']. cbn [fst snd] in E.
    assert (A : forall x, In x (r :: exec acts s') -> x = r).
    { intros x [<-|Hx]; [reflexivity | now apply (exec_set acts s' r)]. }
    now rewrite (A r1 H1), (A r2 H2).
  - now apply (IH (snd (new s))).
Qed.

Lemma getInstance_idempotent_witness :
  exec [CallGetInstance; OtherNew; CallGetInstance] loaded = [0; 0] /\
  nth 0 (exec [CallGetInstance; OtherNew; CallGetInstance] loaded) 7 =
  nth 1 (exec [CallGetInstance; OtherNew; CallGetInstance] loaded) 7.
Proof.
  split; [reflexivity|].
  apply (getInstance_idempotent
           [CallGetInstance; OtherNew; CallGetInstance] loaded).
  - left. reflexivity.
  - right. left. reflexivity.
Defined.

End SingletonFacts.

(** * Further properties of the service *)

(** Split a trace around the turns of the loop. *)
Ltac around_turns :=
  repeat match goal with
  | |- context [?a :: ?b :: ?c :: ?d :: (turns ?h 0 ?N ++ ?t)%list] =>
      change (a :: b :: c :: d :: (turns h 0 N ++ t)%list)
        with ([a; b; c; d] ++ turns h 0 N ++ t)%list
  end.

Section ServiceFacts.

Variable env : Env.

Lemma consoleErrors_app t1 t2 :
  consoleErrors (t1 ++ t2) = (consoleErrors t1 ++ consoleErrors t2)%list.
Proof. apply flat_map_app. Qed.

Lemma consoleErrors_turns h i N : consoleErrors (turns h i N) = [].
Proof.
  revert i; induction N as [|N IH]; intros i;
    [reflexivity | cbn [turns]; apply IH].
Qed.

(** The loop that never sees a done handle uses up any amount of fuel. *)
Lemma poll_loop_stalls (h : nat -> Operation) :
  (forall j, done (h j) = false /\
             getVideosOperation env j (h j) = Fulfilled (h (S j))) ->
  forall fuel i,
    poll_loop env fuel (h i) i i = (turns h i fuel, i + fuel, OutOfFuel).
Proof.
  intros H fuel. induction fuel as [|fuel IH]; intros i.
  - rewrite poll_loop_unfold. destruct (H i) as [-> _].
    cbn [turns]. now rewrite Nat.add_0_r.
  - destruct (H i) as [Hd Hg].
    rewrite (poll_loop_turn env fuel (h i) i i (h (S i)) Hd Hg), IH.
    cbn [turns]. now rewrite Nat.add_succ_r.
Qed.

(** X1: the loop has no bound of its own.  When every handle the service
    returns is not done, the method has, after any number [fuel] of turns,
    waited [fuel] times ten seconds and polled [fuel] times, and has
    neither returned nor thrown. *)
Theorem polling_is_unbounded imageBase64 h fuel :
  Submitted env imageBase64 h ->
  (forall j, done (h j) = false /\
             getVideosOperation env j (h j) = Fulfilled (h (S j))) ->
  outcome env fuel imageBase64 = OutOfFuel /\
  waits (trace env fuel imageBase64) = repeat 10000%Z fuel /\
  polls (trace env fuel imageBase64) = map h (seq 0 fuel) /\
  fetches (trace env fuel imageBase64) = [].
Proof.
  intros [Hc Hs] H. unfold outcome, trace. rewrite run_cases. cbv zeta.
  unfold Constructed in Hc. rewrite Hc, Hs.
  rewrite (poll_loop_stalls h H fuel 0). cbn [fst snd].
  split; [reflexivity|].
  change (?a :: ?b :: ?c :: ?d :: turns h 0 fuel)
    with ([a; b; c; d] ++ turns h 0 fuel)%list.
  rewrite waits_app, polls_app, fetches_app.
  now rewrite waits_turns, polls_turns, fetches_turns.
Qed.

(** X2: an error thrown by the constructor of the client leaves the method
    as it is, also when its message has the phrase the [catch] block looks
    for: the constructor is called before the [try].  Nothing is
    submitted, no progress message is emitted and nothing is logged. *)
Theorem constructor_error_is_not_remapped imageBase64 e fuel :
  newGoogleGenAI env (API_KEY env) = Rejected e ->
  outcome env fuel imageBase64 = Throw e /\
  statuses (trace env fuel imageBase64) = [] /\
  submissions (trace env fuel imageBase64) = [] /\
  consoleErrors (trace env fuel imageBase64) = [].
Proof.
  intros H. unfold outcome, trace. rewrite run_cases. cbv zeta.
  rewrite H. repeat split.
Qed.

(** X3: an error thrown by the download, by [fetch] itself or by
    [response.blob()], passes through the same [catch] block as the errors
    of the service: it is logged once and, if its message has the phrase,
    replaced by "API_KEY_RESET", although the service raised no error. *)
Theorem download_error_is_remapped fuel imageBase64 h N u e :
  DoneAfter env imageBase64 h N ->
  N <= fuel ->
  downloadLink (h N) = Some u ->
  u <> EmptyString ->
  DownloadRaises env (u ++ "&key=" ++ interpolate (API_KEY env)) e ->
  outcome env fuel imageBase64 =
    (if isKeyRejection e then Throw (Error "API_KEY_RESET") else Throw e) /\
  consoleErrors (trace env fuel imageBase64) = [e] /\
  upstreamErrors (trace env fuel imageBase64) = [] /\
  objectURLs (trace env fuel imageBase64) = [].
Proof.
  intros HD Hf HL Hu HR.
  assert (HT : isFalsy (downloadLink (h N)) = false).
  { rewrite HL. destruct u; [contradiction | reflexivity]. }
  unfold outcome, trace. rewrite (run_done env fuel _ h N HD Hf).
  rewrite afterLoop_run, HT. cbv zeta. rewrite HL. cbn [interpolate].
  destruct HR as [HF | r HF Hok Hb]; rewrite HF; [|rewrite Hok, Hb];
    cbn [fst snd settle caught]; (split; [reflexivity|]); around_turns;
    rewrite !consoleErrors_app, !upstreamErrors_app, !objectURLs_app,
      consoleErrors_turns, upstreamErrors_turns, objectURLs_turns;
    repeat split.
Qed.

End ServiceFacts.

Section EveryRun.

Variable env : Env.

(** The loop, for any service and any amount of fuel: one wait and one
    message of the six per poll, and nothing logged. *)
Lemma poll_loop_counts fuel :
  forall operation i n,
    let '(t, _, _) := poll_loop env fuel operation i n in
    waits t = repeat 10000%Z (length (polls t)) /\
    length (statuses t) = length (polls t) /\
    (forall m, In m (statuses t) -> In m loadingMessages) /\
    consoleErrors t = [].
Proof.
  induction fuel as [|fuel IH]; intros operation i n.
  - rewrite poll_loop_unfold.
    destruct (done operation); cbn; repeat split; auto; contradiction.
  - destruct (done operation) eqn:D.
    + rewrite poll_loop_unfold, D. cbn. repeat split; auto; contradiction.
    + destruct (getVideosOperation env n operation) as [next|e] eqn:G.
      * rewrite (poll_loop_turn env fuel operation i n next D G).
        specialize (IH next (S i) (S n)).
        destruct (poll_loop env fuel next (S i) (S n)) as [[t n'] c].
        destruct IH as (W & L & V & C).
        cbn [waits polls statuses consoleErrors flat_map app length repeat].
        fold (waits t). fold (polls t). fold (statuses t).
        fold (consoleErrors t).
        rewrite W, L. repeat split; auto.
        intros m [<-|Hm]; [apply loadingMessage_In | now apply V].
      * rewrite (poll_loop_turn_rejected env fuel operation i n e D G).
        cbn. repeat split; auto.
        intros m [<-|[]]. apply loadingMessage_In.
Qed.


Lemma afterLoop_logs_nothing operation n :
  let '(t, _, _) := afterLoop env operation n in consoleErrors t = [].
Proof.
  rewrite afterLoop_run.
  destruct (isFalsy (downloadLink operation)); [reflexivity|].
  cbv zeta. destruct (fetch env _) as [r|e]; [|reflexivity].
  destruct (ok r); [|reflexivity].
  destruct (blob r); reflexivity.
Qed.

Lemma settle_logs c t :
  consoleErrors t = [] ->
  match settle c with
  | Throw thrown =>
      exists e,
        consoleErrors (t ++ caught c) = [e] /\
        thrown = (if isKeyRejection e then Error "API_KEY_RESET" else e)
  | _ => consoleErrors (t ++ caught c) = []
  end.
Proof.
  intros H. rewrite consoleErrors_app, H.
  destruct c as [v|e|]; cbn [settle caught]; try reflexivity.
  unfold rethrown. destruct (isKeyRejection e) eqn:Ke;
    exists e; now rewrite Ke.
Qed.

(** X5: once the client is built, a run that throws has logged exactly
    one line, with the error as it was before the [catch] block replaced
    it; a run that returns, or is still polling, has logged none. *)
Theorem one_log_line_per_failure fuel imageBase64 :
  Constructed env ->
  match outcome env fuel imageBase64 with
  | Throw thrown =>
      exists e,
        consoleErrors (trace env fuel imageBase64) = [e] /\
        thrown = (if isKeyRejection e then Error "API_KEY_RESET" else e)
  | _ => consoleErrors (trace env fuel imageBase64) = []
  end.
Proof.
  intros Hc. unfold outcome, trace. rewrite run_cases. cbv zeta.
  unfold Constructed in Hc. rewrite Hc.
  destruct (generateVideos env (videoRequest imageBase64)) as [op0|e].
  - pose proof (poll_loop_counts fuel op0 0 0) as C.
    destruct (poll_loop env fuel op0 0 0) as [[t n] c].
    destruct C as (_ & _ & _ & CE).
    destruct c as [op|e|]; cbn [fst snd].
    + pose proof (afterLoop_logs_nothing op n) as A.
      destruct (afterLoop env op n) as [[t2 n2] c2]. cbn [fst snd].
      change (consoleErrors (?a :: ?b :: ?c :: ?d :: ?x))
        with (consoleErrors x).
      rewrite app_assoc. apply settle_logs.
      now rewrite consoleErrors_app, CE, A.
    + change (consoleErrors (?a :: ?b :: ?c :: ?d :: ?x))
        with (consoleErrors x).
      apply (settle_logs (Throw e)). exact CE.
    + exact CE.
  - cbn [fst snd].
    change (consoleErrors (?a :: ?b :: ?c :: ?x)) with (consoleErrors x).
    apply (settle_logs (Throw e) []). reflexivity.
Qed.

End EveryRun.

Section Progress.

Variable env : Env.

Lemma afterLoop_progress operation n :
  let '(t, _, c) := afterLoop env operation n in
  waits (t ++ caught c) = [] /\ polls (t ++ caught c) = [] /\
  (statuses (t ++ caught c) = [] /\ fetches (t ++ caught c) = [] \/
   statuses (t ++ caught c) = [Downloading] /\
   length (fetches (t ++ caught c)) = 1).
Proof.
  rewrite afterLoop_run.
  destruct (isFalsy (downloadLink operation)); [cbn; auto|].
  cbv zeta. destruct (fetch env _) as [r|e]; [|cbn; auto].
  destruct (ok r); [|cbn; auto].
  destruct (blob r); cbn; auto.
Qed.

Lemma Downloading_not_cyclic : ~ In Downloading loadingMessages.
Proof.
  cbn [In loadingMessages]. intros H.
  repeat (destruct H as [H|H]; [discriminate H|]). exact H.
Qed.

(** X6: in every run, finished or not, failing or not, there are exactly
    as many waits as polls, each of ten seconds, and the progress callback
    only ever receives the three fixed messages and the six cyclic ones. *)
Theorem every_run_waits_once_per_poll fuel imageBase64 :
  waits (trace env fuel imageBase64)
    = repeat 10000%Z (length (polls (trace env fuel imageBase64))) /\
  forall m, In m (statuses (trace env fuel imageBase64)) ->
    m = Initializing \/ m = Crafting \/ m = Downloading \/
    In m loadingMessages.
Proof.
  unfold trace. rewrite run_cases. cbv zeta.
  destruct (newGoogleGenAI env (API_KEY env)) as [u|e0];
    [|split; [reflexivity | intros m []]].
  destruct (generateVideos env (videoRequest imageBase64)) as [op0|e];
    [|split; [reflexivity | intros m [<-|[]]; auto]].
  pose proof (poll_loop_counts env fuel op0 0 0) as C.
  destruct (poll_loop env fuel op0 0 0) as [[t n] c].
  destruct C as (W & _ & V & _).
  assert (G : forall tail,
    waits tail = [] -> polls tail = [] ->
    (forall m, In m (statuses tail) -> m = Downloading) ->
    let full := (NewGoogleGenAI (API_KEY env) (Fulfilled u)
                   :: StatusUpdate Initializing
                   :: GenerateVideos (videoRequest imageBase64) (Fulfilled op0)
                   :: StatusUpdate Crafting :: t ++ tail)%list in
    waits full = repeat 10000%Z (length (polls full)) /\
    forall m, In m (statuses full) ->
      m = Initializing \/ m = Crafting \/ m = Downloading \/
      In m loadingMessages).
  { intros tail Hw Hp Hs full. unfold full. split.
    - change (waits (?a :: ?b :: ?c :: ?d :: ?x)) with (waits x).
      change (polls (?a :: ?b :: ?c :: ?d :: ?x)) with (polls x).
      now rewrite waits_app, polls_app, Hw, Hp, !app_nil_r.
    - change (statuses (?a :: StatusUpdate ?m1 :: ?c :: StatusUpdate ?m2 :: ?x))
        with (m1 :: m2 :: statuses x).
      rewrite statuses_app. intros m [<-|[<-|Hm]]; auto.
      apply in_app_or in Hm. destruct Hm as [Hm|Hm]; auto. }
  destruct c as [op|e|]; cbn [fst].
  - pose proof (afterLoop_progress op n) as A.
    destruct (afterLoop env op n) as [[t2 n2] c2]. cbn [fst].
    destruct A as (Hw & Hp & Hs). apply G; auto.
    intros m Hm. destruct Hs as [[Hs _]|[Hs _]]; rewrite Hs in Hm.
    + contradiction.
    + destruct Hm as [<-|[]]. reflexivity.
  - apply G; try reflexivity. intros m [].
  - rewrite <- (app_nil_r t). apply G; try reflexivity. intros m [].
Qed.

(** X7: the message "Downloading final high-fidelity export..." is
    emitted exactly as often as a download is issued, in every run: a run
    without a usable link never announces a download, and no download goes
    unannounced. *)
Theorem download_is_announced fuel imageBase64 :
  count_occ string_dec (statuses (trace env fuel imageBase64)) Downloading
    = length (fetches (trace env fuel imageBase64)).
Proof.
  unfold trace. rewrite run_cases. cbv zeta.
  destruct (newGoogleGenAI env (API_KEY env)) as [u|e0]; [|reflexivity].
  destruct (generateVideos env (videoRequest imageBase64)) as [op0|e];
    [|reflexivity].
  pose proof (poll_loop_counts env fuel op0 0 0) as C.
  pose proof (poll_loop_ordered env fuel op0 0 0) as O.
  destruct (poll_loop env fuel op0 0 0) as [[t n] c].
  destruct C as (_ & _ & V & _). destruct O as (_ & _ & F & _).
  assert (Z : count_occ string_dec (statuses t) Downloading = 0).
  { apply count_occ_not_In. intros H. apply V in H.
    now apply Downloading_not_cyclic. }
  assert (G : forall tail,
    count_occ string_dec (statuses tail) Downloading
      = length (fetches tail) ->
    let full := (NewGoogleGenAI (API_KEY env) (Fulfilled u)
                   :: StatusUpdate Initializing
                   :: GenerateVideos (videoRequest imageBase64) (Fulfilled op0)
                   :: StatusUpdate Crafting :: t ++ tail)%list in
    count_occ string_dec (statuses full) Downloading
      = length (fetches full)).
  { intros tail H full. unfold full.
    change (statuses (?a :: StatusUpdate ?m1 :: ?c :: StatusUpdate ?m2 :: ?x))
      with (m1 :: m2 :: statuses x).
    change (fetches (?a :: ?b :: ?c :: ?d :: ?x)) with (fetches x).
    rewrite statuses_app, fetches_app, F.
    cbn [count_occ].
    destruct (string_dec Initializing Downloading) as [E|_];
      [discriminate E|].
    destruct (string_dec Crafting Downloading) as [E|_]; [discriminate E|].
    now rewrite count_occ_app, Z. }
  destruct c as [op|e|]; cbn [fst].
  - pose proof (afterLoop_progress op n) as A.
    destruct (afterLoop env op n) as [[t2 n2] c2]. cbn [fst].
    destruct A as (_ & _ & [[Hs Hf]|[Hs Hf]]); apply G; rewrite Hs, Hf.
    + reflexivity.
    + cbn [count_occ].
      now destruct (string_dec Downloading Downloading).
  - apply G. reflexivity.
  - rewrite <- (app_nil_r t). apply G. reflexivity.
Qed.

End Progress.

(** ** Further properties of the singleton *)

Module SingletonMore.
Import Singleton.

Definition isCall (a : Action) : bool :=
  match a with CallGetInstance => true | OtherNew => false end.

Lemma finalState_set acts :
  forall s r, instance s = Some r ->
    instance (finalState acts s) = Some r /\
    allocated (finalState acts s)
      = allocated s + length (filter (fun a => negb (isCall a)) acts).
Proof.
  induction acts as [|a acts IH]; intros s r E; cbn [finalState].
  - cbn. split; [exact E | lia].
  - destruct a; cbn [filter isCall negb].
    + unfold getInstance. rewrite E. cbn [snd]. now apply IH.
    + destruct (IH (snd (new s)) r E) as [I A].
      split; [exact I|]. rewrite A. cbn. lia.
Qed.

Lemma getInstance_allocated s :
  allocated (snd (getInstance s))
    = allocated s + match instance s with Some _ => 0 | None => 1 end.
Proof.
  unfold getInstance. destruct (instance s); cbn; lia.
Qed.

(** X8: over any program of calls and foreign allocations, [getInstance]
    creates one object if the field was empty and the program calls it,
    and none otherwise. *)
Theorem getInstance_allocates_once acts s :
  allocated (finalState acts s)
    = allocated s
      + length (filter (fun a => negb (isCall a)) acts)
      + (match instance s with
         | None => if existsb isCall acts then 1 else 0
         | Some _ => 0
         end).
Proof.
  revert s. induction acts as [|a acts IH]; intros s.
  - cbn. destruct (instance s); lia.
  - destruct a; cbn [finalState filter isCall negb existsb orb].
    + destruct (finalState_set acts (snd (getInstance s))
                  (fst (getInstance s))
                  (SingletonFacts.getInstance_sets s)) as [_ A].
      rewrite A, getInstance_allocated. destruct (instance s); lia.
    + rewrite IH. cbn [new snd instance allocated length]. lia.
Qed.

End SingletonMore.

(** * Properties of the application *)

Module AppFacts.
Import App.

(** ** The payload of a data URL *)

Lemma split_not_nil sep s : split sep s <> [].
Proof.
  induction s as [|c s IH]; cbn [split]; [discriminate|].
  destruct (Ascii.eqb c sep); [discriminate|].
  destruct (split sep s); [contradiction | discriminate].
Qed.

Lemma split_without sep s : hasChar sep s = false -> split sep s = [s].
Proof.
  induction s as [|c s IH]; cbn [hasChar split]; [reflexivity|].
  destruct (Ascii.eqb c sep); [discriminate|].
  intros H. now rewrite (IH H).
Qed.

Lemma split_at sep a b :
  hasChar sep a = false ->
  split sep (a ++ String sep b) = a :: split sep b.
Proof.
  induction a as [|c a IH]; cbn [hasChar split append].
  - intros _. now rewrite Ascii.eqb_refl.
  - destruct (Ascii.eqb c sep); [discriminate|].
    intros H. now rewrite (IH H).
Qed.

Lemma hasChar_cut sep s :
  hasChar sep s = true ->
  exists a b, s = (a ++ String sep b)%string /\ hasChar sep a = false.
Proof.
  induction s as [|c s IH]; cbn [hasChar]; [discriminate|].
  destruct (Ascii.eqb c sep) eqn:E.
  - intros _. apply Ascii.eqb_eq in E. subst c.
    exists EmptyString, s. now split.
  - intros H. destruct (IH H) as (a & b & -> & Ha).
    exists (String c a), b. cbn [hasChar append]. now rewrite E.
Qed.

(** X9: the payload handed to the service is the text of the data URL
    after its header: when neither the header nor the payload holds a
    comma (base64 text never does), [split(',')[1]] is the payload; and
    whatever follows a further comma is dropped. *)
Theorem payload_of_data_url header payload rest :
  hasChar "," header = false ->
  hasChar "," payload = false ->
  base64Clean (header ++ "," ++ payload) = Some payload /\
  base64Clean (header ++ "," ++ payload ++ "," ++ rest) = Some payload.
Proof.
  intros Hh Hp. unfold base64Clean. split.
  - change ("," ++ payload)%string with (String "," payload).
    now rewrite (split_at _ _ _ Hh), (split_without _ _ Hp).
  - change ("," ++ payload ++ "," ++ rest)%string
      with (String "," (payload ++ String "," rest)).
    now rewrite (split_at _ _ _ Hh), (split_at _ _ _ Hp).
Qed.

(** X10: the stored payload is [undefined] exactly when the text read
    holds no comma; the image is stored all the same, and the result and
    the error of an earlier run are cleared. *)
Theorem payload_is_undefined_without_comma env text f w :
  (base64Clean text = None <-> hasChar "," text = false) /\
  (hasChar "," text = false ->
   app (onloadend env (length (readers w)) (Some text)
          (handleImageUpload [f] w))
   = setError None
       (setVideoUrl None
          (setImage (Some {| file := f; base64 := None;
                             url := createObjectURL env (fileContent f) |})
             (app w)))).
Proof.
  assert (E : base64Clean text = None <-> hasChar "," text = false).
  { unfold base64Clean. split.
    - destruct (hasChar "," text) eqn:H; [|reflexivity].
      destruct (hasChar_cut _ _ H) as (a & b & -> & Ha).
      rewrite (split_at _ _ _ Ha).
      pose proof (split_not_nil "," b) as N.
      destruct (split "," b); [contradiction | discriminate].
    - intros H. now rewrite (split_without _ _ H). }
  split; [exact E|].
  intros H. apply E in H.
  unfold onloadend, handleImageUpload. cbn [nth_error readers app].
  rewrite nth_error_app2, Nat.sub_diag by lia. cbn [nth_error].
  now rewrite H.
Qed.


(** ** One generation, from the click to the end *)

Section Generation.

Variable env : Env.
Variable fuel : nat.

Lemma steps_app a1 a2 w :
  steps env fuel (a1 ++ a2) w =
  match steps env fuel a1 w with
  | Some w' => steps env fuel a2 w'
  | None => None
  end.
Proof.
  revert w. induction a1 as [|a a1 IH]; intros w; [reflexivity|].
  cbn [steps List.app]. destruct (step env fuel a w); [apply IH | reflexivity].
Qed.

Lemma length_segments t : length (segments t) = S (awaits t).
Proof.
  unfold awaits. induction t as [|e t IH]; [reflexivity|].
  cbn [segments filter].
  destruct (isAwaited e); cbn [length]; [now rewrite IH|].
  destruct e; try exact IH.
  destruct (segments t); [discriminate IH | exact IH].
Qed.

Lemma concat_segments t : concat (segments t) = statuses t.
Proof.
  induction t as [|e t IH]; [reflexivity|].
  cbn [segments].
  destruct e; cbn [isAwaited concat app]; try exact IH.
  change (statuses (StatusUpdate msg :: t)) with (msg :: statuses t).
  rewrite <- IH. pose proof (length_segments t) as L.
  destruct (segments t); [discriminate L | reflexivity].
Qed.

Lemma onStatusUpdates_app a b s :
  onStatusUpdates (a ++ b) s = onStatusUpdates b (onStatusUpdates a s).
Proof. apply fold_left_app. Qed.

Lemma last_default {A} (x : A) l d d' : last (x :: l) d = last (x :: l) d'.
Proof.
  revert x. induction l as [|y l IH]; intros x; [reflexivity|].
  change (last (y :: l) d = last (y :: l) d'). apply IH.
Qed.

(** The callback only writes [statusMessage], and leaves the last message
    in it. *)
Lemma onStatusUpdates_fields msgs :
  forall s,
    image (onStatusUpdates msgs s) = image s /\
    videoUrl (onStatusUpdates msgs s) = videoUrl s /\
    status (onStatusUpdates msgs s) = status s /\
    error (onStatusUpdates msgs s) = error s /\
    hasKey (onStatusUpdates msgs s) = hasKey s /\
    statusMessage (onStatusUpdates msgs s) = last msgs (statusMessage s).
Proof.
  induction msgs as [|m msgs IH]; intros s; [now repeat split|].
  change (onStatusUpdates (m :: msgs) s)
    with (onStatusUpdates msgs (setStatusMessage m s)).
  destruct (IH (setStatusMessage m s)) as (I & V & S & E & K & M).
  rewrite I, V, S, E, K, M. repeat split.
  destruct msgs as [|m' msgs]; [reflexivity|].
  cbn [last]. apply last_default.
Qed.

(** Resuming the only job until it settles. *)
Lemma resume_drains c :
  c <> OutOfFuel ->
  forall rest w,
    rest <> [] ->
    jobs w = [{| pending := rest; completion := c |}] ->
    exists w',
      steps env fuel (repeat (Resume 0) (length rest)) w = Some w' /\
      app w' = match c with
               | Normal resultUrl =>
                   onSuccess resultUrl (onStatusUpdates (concat rest) (app w))
               | Throw err =>
                   onFailure err (onStatusUpdates (concat rest) (app w))
               | OutOfFuel => app w
               end /\
      jobs w' = [] /\ service w' = service w /\ readers w' = readers w.
Proof.
  intros Hc rest. induction rest as [|seg rest IH]; intros w Hne Hj;
    [contradiction|].
  cbn [length repeat steps step]. unfold resume. rewrite Hj.
  cbn [nth_error advance pending completion firstn skipn app].
  destruct rest as [|seg' rest].
  - cbn [length repeat steps concat]. rewrite app_nil_r.
    destruct c as [u|e|]; [| |contradiction]; eexists; repeat split.
  - destruct (IH {| app := onStatusUpdates seg (app w);
                    service := service w;
                    jobs := [{| pending := seg' :: rest; completion := c |}];
                    readers := readers w |} ltac:(discriminate) eq_refl)
      as (w' & Hs & Ha & Hj' & Hv & Hr).
    exists w'. split; [exact Hs|]. cbn [app service readers] in *.
    rewrite Ha.
    destruct c as [u|e|]; [| |contradiction]; cbn [concat];
      rewrite !onStatusUpdates_app; repeat split; auto.
Qed.

(** A generation that nothing interrupts: the click on the enabled button,
    then one resumption per awaited call of the run. *)
Lemma generation_runs w img payload :
  Armed w img payload ->
  outcome env fuel payload <> OutOfFuel ->
  exists w',
    steps env fuel
      (ClickGenerate :: repeat (Resume 0) (awaits (trace env fuel payload))) w
      = Some w' /\
    app w' = settled (statuses (trace env fuel payload))
                     (outcome env fuel payload) (app w) /\
    jobs w' = [] /\
    service w' = snd (Singleton.getInstance (service w)) /\
    readers w' = readers w.
Proof.
  intros (Hk & Hd & Hi & Hb & Hj) Hc.
  cbn [steps step]. rewrite Hk, Hd. cbn [andb negb].
  unfold triggerGeneration. rewrite Hi, Hb, Hj.
  destruct (Singleton.getInstance (service w)) as [ref cls] eqn:G.
  unfold outcome, trace in *.
  destruct (run env fuel payload) as [t c] eqn:R. cbn [fst snd] in *.
  pose proof (length_segments t) as L.
  pose proof (concat_segments t) as C.
  unfold settled.
  set (s := setError None (setStatus INITIALIZING (app w))) in *.
  destruct (segments t) as [|seg rest] eqn:S; [discriminate L|].
  cbn [length] in L. injection L as L. rewrite <- L.
  cbn [advance]. destruct rest as [|seg' rest].
  - cbn [length repeat steps app].
    cbn [concat] in C. rewrite app_nil_r in C. rewrite <- C.
    destruct c as [u|e|]; [| |contradiction]; eexists; repeat split.
  - cbn [app].
    destruct (resume_drains c Hc (seg' :: rest)
                {| app := onStatusUpdates seg s; service := cls;
                   jobs := [{| pending := seg' :: rest; completion := c |}];
                   readers := readers w |} ltac:(discriminate) eq_refl)
      as (w' & Hs & Ha & Hj' & Hv & Hr).
    exists w'. split; [exact Hs|]. cbn [app service readers] in *.
    rewrite Ha, <- C.
    destruct c as [u|e|]; [| |contradiction]; cbn [concat];
      rewrite !onStatusUpdates_app; repeat split; auto.
Qed.

End Generation.

(** ** What the user sees after a generation *)

Section EndToEnd.

Variable env : Env.
Variable fuel : nat.

Abbreviation KeyExpired :=
  "Your API key session expired or is invalid. Please select a valid key.".
Abbreviation Unexpected :=
  "An unexpected error occurred during animation generation.".

(** The successful run: what it returns and its last progress message. *)
Lemma successful_run payload h N u r b :
  DoneAfter env payload h N ->
  N <= fuel ->
  downloadLink (h N) = Some u ->
  u <> EmptyString ->
  fetch env (u ++ "&key=" ++ interpolate (API_KEY env)) = Fulfilled r ->
  ok r = true ->
  blob r = Fulfilled b ->
  outcome env fuel payload = Normal (createObjectURL env b) /\
  last (statuses (trace env fuel payload)) EmptyString = Downloading.
Proof.
  intros HD Hf HL Hu HF Hok Hb.
  assert (HT : isFalsy (downloadLink (h N)) = false).
  { rewrite HL. destruct u; [contradiction | reflexivity]. }
  unfold outcome, trace. rewrite (run_done env fuel _ h N HD Hf).
  rewrite afterLoop_run, HT. cbv zeta. rewrite HL.
  cbn [interpolate]. rewrite HF, Hok, Hb. cbn [fst snd settle caught].
  split; [reflexivity|]. around_turns.
  rewrite !statuses_app.
  change (statuses [StatusUpdate Downloading; ?f; ?g; ?k]) with [Downloading].
  change (statuses []) with (@nil string).
  rewrite app_nil_r, app_assoc. apply last_last.
Qed.

(** X11: a key rejected by the service reaches the user as a request for a
    new key.  When the submission or a poll throws an error whose message
    has "Requested entity was not found", an uninterrupted generation ends
    with [hasKey] false, the fixed text about the expired key as error and
    status ERROR, and the page shows the key prompt; the image is kept, so
    once a key is selected again the generate button is enabled. *)
Theorem key_rejection_asks_for_key w img payload e n :
  Armed w img payload ->
  Raises env payload e n ->
  n <= fuel ->
  isKeyRejection e = true ->
  exists w',
    steps env fuel
      (ClickGenerate :: repeat (Resume 0) (awaits (trace env fuel payload))) w
      = Some w' /\
    hasKey (app w') = false /\
    error (app w') = Some KeyExpired /\
    status (app w') = ERROR /\
    resultPanel (app w') = KeyPrompt /\
    image (app w') = Some img /\
    jobs w' = [] /\
    generateDisabled (app (handleSelectKey (Fulfilled tt) w')) = false.
Proof.
  intros HA HR Hn Hk.
  destruct (run_raises env fuel payload e n HR Hn) as [O _].
  unfold rethrown in O. rewrite Hk in O.
  destruct (generation_runs env fuel w img payload HA) as (w' & Hs & Ha & Hj & _).
  { rewrite O. discriminate. }
  exists w'. split; [exact Hs|]. rewrite O in Ha. unfold settled in Ha.
  destruct HA as (_ & _ & Hi & _).
  destruct (onStatusUpdates_fields (statuses (trace env fuel payload))
              (setError None (setStatus INITIALIZING (app w))))
    as (I & _).
  cbn [image setError setStatus] in I.
  unfold handleSelectKey. cbn [app withApp].
  rewrite Ha. unfold onFailure, resultPanel, generateDisabled.
  cbn [isKeyReset Error message String.eqb Ascii.eqb Bool.eqb
       hasKey error status image setStatus setError setHasKey negb].
  rewrite I, Hi. repeat split; auto.
Qed.

(** X12: an uninterrupted successful generation (the operation done after
    [N] polls, with a link whose download succeeds) ends with the object
    URL of the body as [videoUrl], status COMPLETED, no error, and the
    download message as last status message. *)
Theorem success_shows_video w img payload h N u r b :
  Armed w img payload ->
  DoneAfter env payload h N ->
  N <= fuel ->
  downloadLink (h N) = Some u ->
  u <> EmptyString ->
  fetch env (u ++ "&key=" ++ interpolate (API_KEY env)) = Fulfilled r ->
  ok r = true ->
  blob r = Fulfilled b ->
  exists w',
    steps env fuel
      (ClickGenerate :: repeat (Resume 0) (awaits (trace env fuel payload))) w
      = Some w' /\
    videoUrl (app w') = Some (createObjectURL env b) /\
    status (app w') = COMPLETED /\
    error (app w') = None /\
    statusMessage (app w') = Downloading /\
    jobs w' = [].
Proof.
  intros HA HD Hf HL Hu HF Hok Hb.
  destruct (successful_run payload h N u r b HD Hf HL Hu HF Hok Hb) as [O L].
  destruct (generation_runs env fuel w img payload HA) as (w' & Hs & Ha & Hj & _).
  { rewrite O. discriminate. }
  exists w'. split; [exact Hs|]. rewrite O in Ha. unfold settled in Ha.
  destruct (onStatusUpdates_fields (statuses (trace env fuel payload))
              (setError None (setStatus INITIALIZING (app w))))
    as (_ & _ & _ & E & _ & M).
  rewrite Ha. unfold onSuccess.
  cbn [videoUrl status error statusMessage setStatus setVideoUrl].
  rewrite E, M. repeat split; auto.
  cbn [statusMessage setError setStatus].
  destruct (statuses (trace env fuel payload)) as [|m l] eqn:S;
    [discriminate L|].
  rewrite <- L. apply last_default.
Qed.

(** X13: a generation that fails with anything but "API_KEY_RESET" ends
    with status ERROR and the message of the error (or a fixed text when
    it has none) as error, and leaves the key flag, the image and the
    video of an earlier run as they were; as the page shows a video before
    anything else, with such a video the user is not shown the error. *)
Theorem failure_keeps_earlier_video w img payload e :
  Armed w img payload ->
  outcome env fuel payload = Throw e ->
  isKeyReset e = false ->
  exists w',
    steps env fuel
      (ClickGenerate :: repeat (Resume 0) (awaits (trace env fuel payload))) w
      = Some w' /\
    status (app w') = ERROR /\
    error (app w') = Some (messageOr (message e) Unexpected) /\
    videoUrl (app w') = videoUrl (app w) /\
    hasKey (app w') = true /\
    image (app w') = Some img /\
    (forall c u, videoUrl (app w) = Some (String c u) ->
       resultPanel (app w') = VideoPlayer (String c u)).
Proof.
  intros HA O Hk.
  destruct (generation_runs env fuel w img payload HA) as (w' & Hs & Ha & Hj & _).
  { rewrite O. discriminate. }
  exists w'. split; [exact Hs|]. rewrite O in Ha. unfold settled in Ha.
  destruct HA as (HK & _ & Hi & _).
  destruct (onStatusUpdates_fields (statuses (trace env fuel payload))
              (setError None (setStatus INITIALIZING (app w))))
    as (I & V & _ & _ & K & _).
  cbn [image videoUrl hasKey setError setStatus] in I, V, K.
  rewrite Ha. unfold onFailure, resultPanel. rewrite Hk.
  cbn [hasKey error status image videoUrl setStatus setError].
  rewrite I, V, K, Hi, HK. repeat split; auto.
  intros c u ->. reflexivity.
Qed.

(** X14: after a successful generation, "Clear Result" brings back the
    spinner, with the download message as caption, although no generation
    is in flight: the page shows the spinner for every status other than
    IDLE and ERROR, and the status is left at COMPLETED. *)
Theorem clear_result_shows_spinner w img payload h N u r b :
  Armed w img payload ->
  DoneAfter env payload h N ->
  N <= fuel ->
  downloadLink (h N) = Some u ->
  u <> EmptyString ->
  fetch env (u ++ "&key=" ++ interpolate (API_KEY env)) = Fulfilled r ->
  ok r = true ->
  blob r = Fulfilled b ->
  createObjectURL env b <> EmptyString ->
  exists w',
    steps env fuel
      (ClickGenerate
         :: repeat (Resume 0) (awaits (trace env fuel payload))
         ++ [ClickClear]) w
      = Some w' /\
    resultPanel (app w') = Spinner Downloading /\
    status (app w') = COMPLETED /\
    jobs w' = [].
Proof.
  intros HA HD Hf HL Hu HF Hok Hb Hne.
  destruct (successful_run payload h N u r b HD Hf HL Hu HF Hok Hb) as [O L].
  destruct (generation_runs env fuel w img payload HA) as (w1 & Hs & Ha & Hj & _).
  { rewrite O. discriminate. }
  rewrite O in Ha. unfold settled in Ha.
  destruct HA as (HK & _).
  destruct (onStatusUpdates_fields (statuses (trace env fuel payload))
              (setError None (setStatus INITIALIZING (app w))))
    as (_ & _ & _ & _ & K & M).
  cbn [hasKey setError setStatus] in K.
  assert (M' : statusMessage (app w1) = Downloading).
  { rewrite Ha. unfold onSuccess. cbn [statusMessage setStatus setVideoUrl].
    rewrite M. cbn [statusMessage setError setStatus].
    destruct (statuses (trace env fuel payload)) as [|m l] eqn:S;
      [discriminate L|].
    rewrite <- L. apply last_default. }
  assert (K' : hasKey (app w1) = true).
  { rewrite Ha. unfold onSuccess. cbn [hasKey setStatus setVideoUrl].
    now rewrite K. }
  assert (V' : videoUrl (app w1) = Some (createObjectURL env b)).
  { rewrite Ha. reflexivity. }
  assert (S' : status (app w1) = COMPLETED).
  { rewrite Ha. reflexivity. }
  exists (withApp (setVideoUrl None (app w1)) w1).
  split.
  - change (ClickGenerate :: ?l ++ [ClickClear])%list
      with ((ClickGenerate :: l) ++ [ClickClear])%list.
    rewrite steps_app, Hs. cbn [steps step].
    rewrite K', V'.
    destruct (createObjectURL env b); [contradiction | reflexivity].
  - cbn [app withApp jobs]. unfold resultPanel.
    cbn [hasKey videoUrl status statusMessage setVideoUrl].
    rewrite K', S', M'. repeat split; auto.
Qed.

End EndToEnd.

(** ** What holds whatever the user does *)

Section Invariants.

Variable env : Env.
Variable fuel : nat.








(** Once the client is built, a run is suspended at least once. *)
Lemma constructed_run_is_suspended payload :
  Constructed env ->
  exists seg seg' rest,
    segments (trace env fuel payload) = seg :: seg' :: rest.
Proof.
  intros Hc. unfold trace. rewrite run_cases. cbv zeta.
  unfold Constructed in Hc. rewrite Hc.
  assert (G : forall res t,
    exists seg seg' rest,
      segments (NewGoogleGenAI (API_KEY env) (Fulfilled tt)
                  :: StatusUpdate Initializing
                  :: GenerateVideos (videoRequest payload) res :: t)
        = seg :: seg' :: rest).
  { intros res t. cbn [segments isAwaited].
    pose proof (length_segments t) as L.
    destruct (segments t) as [|s0 r0]; [discriminate L|].
    now exists [Initializing], s0, r0. }
  destruct (generateVideos env (videoRequest payload)) as [op0|e];
    [|apply G].
  destruct (poll_loop env fuel op0 0 0) as [[t n] c].
  destruct c as [op|e|]; cbn [fst]; [|apply G|apply G].
  destruct (afterLoop env op n) as [[t2 n2] c2]. apply G.
Qed.

(** Picking a file and reading it through. *)
Lemma upload_stores f text w :
  onloadend env (length (readers w)) (Some text) (handleImageUpload [f] w)
  = {| app :=
         setError None
           (setVideoUrl None
              (setImage (Some {| file := f; base64 := base64Clean text;
                                 url := createObjectURL env (fileContent f) |})
                 (app w)));
       service := service w; jobs := jobs w; readers := readers w |}.
Proof.
  unfold onloadend, handleImageUpload. cbn [nth_error readers app service jobs].
  rewrite nth_error_app2, Nat.sub_diag by lia. cbn [nth_error].
  rewrite firstn_app, Nat.sub_diag, firstn_all. cbn [firstn].
  rewrite skipn_app, skipn_all2 by lia.
  replace (S (length (readers w)) - length (readers w)) with 1 by lia.
  cbn [skipn]. now rewrite !app_nil_r.
Qed.

(** X17: reset does not cancel.  With a key and an image, resetting,
    picking a file whose data URL has a payload and clicking generate
    starts a generation while everything that was in flight stays in
    flight. *)
Theorem reset_does_not_cancel w f header payload :
  Constructed env ->
  hasKey (app w) = true ->
  image (app w) <> None ->
  hasChar "," header = false ->
  hasChar "," payload = false ->
  exists w' j,
    steps env fuel
      [ClickReset; PickFile [f];
       ReadEnd (length (readers w)) (Some (header ++ "," ++ payload));
       ClickGenerate] w = Some w' /\
    jobs w' = (jobs w ++ [j])%list /\
    status (app w') = INITIALIZING.
Proof.
  intros Hc Hk Hi Hh Hp.
  destruct (payload_of_data_url header payload EmptyString Hh Hp) as [B _].
  destruct (constructed_run_is_suspended payload Hc)
    as (seg & seg' & rest & S).
  cbn [steps]. unfold step at 1.
  destruct (image (app w)) as [img|] eqn:Im; [|contradiction].
  rewrite Hk. unfold step at 1.
  assert (K1 : hasKey (app (reset w)) = true) by exact Hk.
  rewrite K1. unfold step at 1.
  change (readers w) with (readers (reset w)).
  rewrite upload_stores, B. unfold step.
  cbn [app hasKey generateDisabled image status setError setVideoUrl setImage
       reset withApp setStatus andb negb].
  rewrite Hk. cbn [andb].
  unfold triggerGeneration.
  cbn [app image base64 service jobs readers setError setVideoUrl setImage
       reset withApp setStatus].
  destruct (Singleton.getInstance (service w)) as [ref cls].
  unfold trace in S.
  destruct (run env fuel payload) as [t c]. cbn [fst] in S. rewrite S.
  cbn [advance].
  eexists; eexists. split; [reflexivity|]. cbn [jobs app].
  split; [reflexivity|].
  match goal with |- status (onStatusUpdates ?m ?s) = _ =>
    destruct (onStatusUpdates_fields m s) as (_ & _ & St & _); rewrite St
  end.
  reflexivity.
Qed.


End Invariants.

(** ** The theorems at work *)

Lemma payload_of_data_url_witness :
  base64Clean "data:image/png;base64,aGVsbG8=" = Some "aGVsbG8=" /\
  base64Clean "data:image/png;base64,aGVsbG8=,tail" = Some "aGVsbG8=".
Proof.
  apply (payload_of_data_url "data:image/png;base64" "aGVsbG8=" "tail");
    reflexivity.
Defined.

Lemma payload_is_undefined_without_comma_witness :
  base64Clean "no payload here" = None /\
  image (app (onloadend scenario 0 (Some "no payload here")
                (handleImageUpload [sample] boot)))
  = Some {| file := sample; base64 := None; url := "blob:local/1" |}.
Proof.
  destruct (payload_is_undefined_without_comma scenario "no payload here"
              sample boot) as [E S].
  split; [now apply E|]. exact (f_equal image (S eq_refl)).
Defined.

Lemma ready_Armed payload :
  Armed (ready payload) (preview payload) payload.
Proof. now repeat split. Qed.

Lemma key_rejection_asks_for_key_witness :
  exists w',
    steps expiring 1
      (ClickGenerate
         :: repeat (Resume 0) (awaits (trace expiring 1 "aGVsbG8=")))
      (ready "aGVsbG8=") = Some w' /\
    hasKey (app w') = false /\
    error (app w')
      = Some "Your API key session expired or is invalid. Please select a valid key." /\
    status (app w') = ERROR /\
    resultPanel (app w') = KeyPrompt /\
    image (app w') = Some (preview "aGVsbG8=") /\
    jobs w' = [] /\
    generateDisabled (app (handleSelectKey (Fulfilled tt) w')) = false.
Proof.
  apply (key_rejection_asks_for_key expiring 1 (ready "aGVsbG8=")
           (preview "aGVsbG8=") "aGVsbG8=" keyRejected 1).
  - apply ready_Armed.
  - apply (poll_raises _ _ _ (fun _ => pendingOp "op") 0).
    + split; reflexivity.
    + intros j Hj. lia.
    + reflexivity.
    + reflexivity.
  - lia.
  - reflexivity.
Defined.

Lemma success_shows_video_witness :
  exists w',
    steps scenario 1
      (ClickGenerate
         :: repeat (Resume 0) (awaits (trace scenario 1 "aGVsbG8=")))
      (ready "aGVsbG8=") = Some w' /\
    videoUrl (app w') = Some "blob:local/1" /\
    status (app w') = COMPLETED /\
    error (app w') = None /\
    statusMessage (app w') = "Downloading final high-fidelity export..." /\
    jobs w' = [].
Proof.
  apply (success_shows_video scenario 1 (ready "aGVsbG8=")
           (preview "aGVsbG8=") "aGVsbG8=" scenarioHandles 1 "https://x/video123"
           {| ok := true; blob := Fulfilled body |} body).
  - apply ready_Armed.
  - split; [split; reflexivity|]. split; [|reflexivity].
    intros j Hj. assert (j = 0) as -> by lia. split; reflexivity.
  - lia.
  - reflexivity.
  - discriminate.
  - reflexivity.
  - reflexivity.
  - reflexivity.
Defined.

Lemma failure_keeps_earlier_video_witness :
  exists w',
    steps throttling 1
      (ClickGenerate
         :: repeat (Resume 0) (awaits (trace throttling 1 "aGVsbG8=")))
      (readyWithVideo "aGVsbG8=") = Some w' /\
    status (app w') = ERROR /\
    error (app w') = Some "429 RESOURCE_EXHAUSTED" /\
    resultPanel (app w') = VideoPlayer "blob:local/earlier".
Proof.
  destruct (failure_keeps_earlier_video throttling 1
              (readyWithVideo "aGVsbG8=")
              (preview "aGVsbG8=") "aGVsbG8=" quotaExceeded)
    as (w' & Hs & St & Er & _ & _ & _ & P).
  - now repeat split.
  - reflexivity.
  - reflexivity.
  - exists w'. split; [exact Hs|]. split; [exact St|]. split; [exact Er|].
    apply (P "b"%char "lob:local/earlier"). reflexivity.
Defined.

Lemma clear_result_shows_spinner_witness :
  exists w',
    steps scenario 1
      (ClickGenerate
         :: repeat (Resume 0) (awaits (trace scenario 1 "aGVsbG8="))
         ++ [ClickClear])
      (ready "aGVsbG8=") = Some w' /\
    resultPanel (app w')
      = Spinner "Downloading final high-fidelity export..." /\
    status (app w') = COMPLETED /\
    jobs w' = [].
Proof.
  apply (clear_result_shows_spinner scenario 1 (ready "aGVsbG8=")
           (preview "aGVsbG8=") "aGVsbG8=" scenarioHandles 1 "https://x/video123"
           {| ok := true; blob := Fulfilled body |} body).
  - apply ready_Armed.
  - split; [split; reflexivity|]. split; [|reflexivity].
    intros j Hj. assert (j = 0) as -> by lia. split; reflexivity.
  - lia.
  - reflexivity.
  - discriminate.
  - reflexivity.
  - reflexivity.
  - reflexivity.
  - discriminate.
Defined.



Lemma reset_does_not_cancel_witness :
  exists w' j,
    steps stalling 2
      [ClickReset; PickFile [sample];
       ReadEnd 0 (Some "data:image/png;base64,aGVsbG8=");
       ClickGenerate] (ready "aGVsbG8=") = Some w' /\
    jobs w' = [j] /\
    status (app w') = INITIALIZING.
Proof.
  apply (reset_does_not_cancel stalling 2 (ready "aGVsbG8=") sample
           "data:image/png;base64" "aGVsbG8=").
  - reflexivity.
  - reflexivity.
  - discriminate.
  - reflexivity.
  - reflexivity.
Defined.


End AppFacts.

(** ** The theorems on the service at work *)

Lemma polling_is_unbounded_witness :
  outcome stalling 5 "aGVsbG8=" = OutOfFuel /\
  waits (trace stalling 5 "aGVsbG8=") = repeat 10000%Z 5 /\
  polls (trace stalling 5 "aGVsbG8=")
    = map (fun _ => pendingOp "op") (seq 0 5) /\
  fetches (trace stalling 5 "aGVsbG8=") = [].
Proof.
  apply (polling_is_unbounded stalling "aGVsbG8=" (fun _ => pendingOp "op") 5).
  - split; reflexivity.
  - intros j. split; reflexivity.
Defined.

Lemma constructor_error_is_not_remapped_witness :
  isKeyRejection keyRejected = true /\
  outcome keyless 3 "aGVsbG8=" = Throw keyRejected /\
  statuses (trace keyless 3 "aGVsbG8=") = [] /\
  submissions (trace keyless 3 "aGVsbG8=") = [] /\
  consoleErrors (trace keyless 3 "aGVsbG8=") = [].
Proof.
  split; [reflexivity|].
  apply (constructor_error_is_not_remapped keyless "aGVsbG8=" keyRejected 3).
  reflexivity.
Defined.

Lemma download_error_is_remapped_witness :
  outcome cutOff 1 "aGVsbG8=" = Throw (Error "API_KEY_RESET") /\
  consoleErrors (trace cutOff 1 "aGVsbG8=") = [keyRejected] /\
  upstreamErrors (trace cutOff 1 "aGVsbG8=") = [] /\
  objectURLs (trace cutOff 1 "aGVsbG8=") = [].
Proof.
  apply (download_error_is_remapped cutOff 1 "aGVsbG8=" scenarioHandles 1
           "https://x/video123" keyRejected).
  - split; [split; reflexivity|]. split; [|reflexivity].
    intros j Hj. assert (j = 0) as -> by lia. split; reflexivity.
  - lia.
  - reflexivity.
  - discriminate.
  - apply fetch_rejects. reflexivity.
Defined.


Lemma one_log_line_per_failure_witness :
  exists e,
    consoleErrors (trace expiring 1 "aGVsbG8=") = [e] /\
    Error "API_KEY_RESET"
      = (if isKeyRejection e then Error "API_KEY_RESET" else e).
Proof.
  exact (one_log_line_per_failure expiring 1 "aGVsbG8=" eq_refl).
Defined.

Lemma every_run_waits_once_per_poll_witness :
  waits (trace slow 3 "aGVsbG8=") = repeat 10000%Z 3 /\
  ("Polishing hair strand animations..." = Initializing \/
   "Polishing hair strand animations..." = Crafting \/
   "Polishing hair strand animations..." = Downloading \/
   In "Polishing hair strand animations..." loadingMessages).
Proof.
  destruct (every_run_waits_once_per_poll slow 3 "aGVsbG8=") as [W V].
  split; [exact W|].
  apply V. right. right. right. right. left. reflexivity.
Defined.
